(** * Deepway detection core

  A shallow embedding of the scoring logic documented in
  [CORE_MODELS_REFERENCE.md] (excerpts of [visual_detector.py],
  [temporal_detector.py] and [fusion_engine.py]), of the classification
  rules of the two integration plans, and of the response schema.

  Python floats are idealised as exact numbers: rationals ([Q]) for the
  scoring and fusion arithmetic, which keeps every definition executable,
  and reals ([R]) for the softmax, which needs the exponential. *)

From Stdlib Require Import Reals Lra.
From Stdlib Require Import QArith Qabs Qminmax Lqa Lia List String Bool.
From Stdlib Require Import Ascii.
Import ListNotations.

Local Open Scope Q_scope.

(** ** Response vocabulary *)

(** The [classification] and [confidence] fields are plain strings, both in
  the Python services and in the front end's [AnalysisResult] interface.
  The response schema enumerates the values of [classification]. *)
Definition response_classifications : list string :=
  ["AUTHENTIC"; "SUSPICIOUS"; "MANIPULATED"]%string.

Definition response_confidences : list string :=
  ["LOW"; "MEDIUM"; "HIGH"]%string.

(** [prediction] object shared by every detector's output *)
Record Prediction := mkPrediction {
  fake_probability : Q;
  real_probability : Q
}.

(** The part of a detector's result dictionary that fusion reads:
  [result['prediction']['fake_probability']]. *)
Record SignalResult := mkSignal {
  prediction : Prediction
}.

(** [result['prediction']['fake_probability']] *)
Definition fake_score (r : SignalResult) : Q :=
  fake_probability (prediction r).

(** A detector result whose two probabilities are [p] and [1 - p], for the
    worked cases. *)
Definition signal (p : Q) : SignalResult :=
  mkSignal (mkPrediction p (1 - p)).

(** ** Model 1: visual detector (three-class ViT) *)
Module VisualDetector.

(** [id2label]: 0 Artificial, 1 Deepfake, 2 Real *)
Definition id2label (i : nat) : option string :=
  match i with
  | 0%nat => Some "Artificial"%string
  | 1%nat => Some "Deepfake"%string
  | 2%nat => Some "Real"%string
  | _ => None
  end.

(** [probabilities = softmax(logits)], indexed by class id *)
Record ClassProbabilities := mkProbs {
  prob_artificial : Q;
  prob_deepfake : Q;
  prob_real : Q
}.

(** Risk calculation of [visual_detector.py]; [predicted_class] is the
    index chosen upstream, both branches are kept as written. *)
Definition risk_score (predicted_class : nat) (prob_real : Q) : Q :=
  if ((predicted_class =? 0)%nat || (predicted_class =? 1)%nat)%bool
  then (1 - prob_real) * 100
  else (1 - prob_real) * 100.

(** [if risk_score >= 50: "MANIPULATED" else: "AUTHENTIC"] *)
Definition classification (risk_score : Q) : string :=
  if Qle_bool 50 risk_score then "MANIPULATED"%string else "AUTHENTIC"%string.

(** Risk formula of the ViT integration plan:
    [(Prob(Deepfake) + Prob(AiGenerated)) * 100]. *)
Definition plan_risk_score (p : ClassProbabilities) : Q :=
  (prob_deepfake p + prob_artificial p) * 100.

End VisualDetector.

(** ** Model 2: temporal detector (binary 3D CNN, REAL = 0, FAKE = 1) *)
Module TemporalDetector.

Definition class_labels (i : nat) : option string :=
  match i with
  | 0%nat => Some "REAL"%string
  | 1%nat => Some "FAKE"%string
  | _ => None
  end.

(** [risk_score = prob_fake * 100.0] *)
Definition risk_score (prob_fake : Q) : Q := prob_fake * 100.

(** [if prob_fake > prob_real: "MANIPULATED" else: "AUTHENTIC"] *)
Definition classification (prob_real prob_fake : Q) : string :=
  if Qlt_le_dec prob_real prob_fake
  then "MANIPULATED"%string else "AUTHENTIC"%string.

(** Confidence levels from [max_prob = max(prob_real, prob_fake)] *)
Definition confidence (prob_real prob_fake : Q) : string :=
  let max_prob := Qmax prob_real prob_fake in
  if Qle_bool (85 # 100) max_prob then "HIGH"%string
  else if Qle_bool (65 # 100) max_prob then "MEDIUM"%string
  else "LOW"%string.

End TemporalDetector.

(** ** Threshold rule of the integration plans

  Both plans classify by [Risk > 50] / [Risk <= 50].  The plans name the
  positive label "FAKE"; the services and the response schema use
  "MANIPULATED", which is the label kept here. *)
Definition threshold_classification (risk_score : Q) : string :=
  if Qlt_le_dec 50 risk_score
  then "MANIPULATED"%string else "AUTHENTIC"%string.

(** ** Model 4: fusion engine *)
Module FusionEngine.

(** The neutral test of [fuse_image_signals]:
    [abs(forensic_score - 0.5) < 0.01]. *)
Definition is_neutral (score : Q) : bool :=
  if Qlt_le_dec (Qabs (score - (5 # 10))) (1 # 100) then true else false.

(** [fuse_image_signals(visual_result, forensic_result)] *)
Definition fuse_image_signals (visual_result forensic_result : SignalResult) : Q :=
  let visual_weight := 70 # 100 in
  let forensic_weight := 30 # 100 in
  let visual_score := fake_probability (prediction visual_result) in
  let forensic_score := fake_probability (prediction forensic_result) in
  let final_score :=
    if Qlt_le_dec (Qabs (forensic_score - (5 # 10))) (1 # 100)
    then visual_score
    else visual_score * visual_weight + forensic_score * forensic_weight in
  let risk_score := final_score * 100 in
  risk_score.

(** The same body with the weight configuration lifted to parameters, so
    that statements about other weight configurations can be made about
    the source's formula. *)
Definition fuse_signals_weighted (visual_weight forensic_weight : Q)
           (visual_score forensic_score : Q) : Q :=
  let final_score :=
    if is_neutral forensic_score
    then visual_score
    else visual_score * visual_weight + forensic_score * forensic_weight in
  final_score * 100.

Definition visual_weight : Q := 70 # 100.
Definition forensic_weight : Q := 30 # 100.

(** The (weight, score) pairs that enter [final_score] in each branch of
    the source: the visual signal always, the forensic one unless neutral. *)
Definition contributing_signals (visual_weight forensic_weight : Q)
           (visual_score forensic_score : Q) : list (Q * Q) :=
  if is_neutral forensic_score
  then [(visual_weight, visual_score)]
  else [(visual_weight, visual_score); (forensic_weight, forensic_score)].

(** [WEIGHTS] of the enhanced mode ([advanced.py]) *)
Definition WEIGHTS : list (string * Q) :=
  [("nvidia_hive"%string, 30 # 100);
   ("huggingface"%string, 35 # 100);
   ("local_ensemble"%string, 35 # 100)].

End FusionEngine.

(** ** Renormalised weighted combination, as the specification words it

  Steps 3 to 5 of the specified algorithm over a list of surviving
  (weight, fake probability) pairs: weights divided by their sum, the
  weighted sum of the probabilities, the risk score clamped to [0,100].
  These are reference definitions to compare the source's fusion with. *)
Module Reference.

Definition weight_sum (signals : list (Q * Q)) : Q :=
  fold_right (fun wp acc => fst wp + acc) 0 signals.

Definition fused_fake_probability (signals : list (Q * Q)) : Q :=
  let total := weight_sum signals in
  fold_right (fun wp acc => (fst wp / total) * snd wp + acc) 0 signals.

Definition clamp (lo hi x : Q) : Q := Qmax lo (Qmin hi x).

Definition risk_score (signals : list (Q * Q)) : Q :=
  clamp 0 100 (fused_fake_probability signals * 100).


End Reference.

(** ** Softmax of the temporal detector, over the reals *)
Module Softmax.

Local Open Scope R_scope.

(** [np.max] of a non-empty vector *)
Fixpoint max_from (x : R) (xs : list R) : R :=
  match xs with
  | [] => x
  | y :: ys => max_from (Rmax x y) ys
  end.

Definition sum (xs : list R) : R := fold_right Rplus 0 xs.

(** [stable_softmax(logits)]: [np.max] raises on an empty vector, which
    is the [None] case. *)
Definition stable_softmax (logits : list R) : option (list R) :=
  match logits with
  | [] => None
  | x :: xs =>
      let m := max_from x xs in
      let exp_logits := map (fun l => exp (l - m)) logits in
      Some (map (fun e => e / sum exp_logits) exp_logits)
  end.

(** The textbook softmax, [exp(l_i) / sum_j exp(l_j)], the reference the
    stable variant is compared with. *)
Definition standard_softmax (logits : list R) : list R :=
  map (fun l => exp l / sum (map exp logits)) logits.

End Softmax.

(** ** Label tables of the visual detector *)
Module VisualLabels.

(** [label2id]: the inverse table kept next to [id2label] *)
Definition label2id (label : string) : option nat :=
  if String.eqb label "Artificial" then Some 0%nat
  else if String.eqb label "Deepfake" then Some 1%nat
  else if String.eqb label "Real" then Some 2%nat
  else None.

(** [probabilities[i]]; an index outside the three classes has no entry *)
Definition class_probability (p : VisualDetector.ClassProbabilities)
           (i : nat) : option Q :=
  match i with
  | 0%nat => Some (VisualDetector.prob_artificial p)
  | 1%nat => Some (VisualDetector.prob_deepfake p)
  | 2%nat => Some (VisualDetector.prob_real p)
  | _ => None
  end.

(** The test [predicted_class in [0, 1]] of the risk calculation *)
Definition fake_class (predicted_class : nat) : bool :=
  ((predicted_class =? 0)%nat || (predicted_class =? 1)%nat)%bool.

End VisualLabels.

(** ** Frame sampling of the temporal detector *)
Module FrameSampling.

Local Open Scope Z_scope.

(** [np.linspace(start, stop, num, dtype=int)] in exact arithmetic: sample
    [k] is [start + k * (stop - start) / (num - 1)], rounded down. *)
Definition linspace_int (start stop : Z) (num : nat) : list Z :=
  map (fun k => start + (Z.of_nat k * (stop - start)) / (Z.of_nat num - 1))
      (seq 0 num).

(** [indices = np.linspace(0, total_frames - 1, 16, dtype=int)] *)
Definition frame_indices (total_frames : Z) : list Z :=
  linspace_int 0 (total_frames - 1) 16.

End FrameSampling.

(** ** The analysis page ([AnalyzePage.tsx]) *)
Module AnalyzePage.

Inductive Mode := standard | enhanced.

(** The fields of a browser [File] the page reads *)
Record File := mkFile {
  name : string;
  type : string;
  size : Z
}.

(** [interface AnalysisResult], the fields the result card renders *)
Record AnalysisResult := mkResult {
  classification : string;
  confidence : string;
  risk_score : Q;
  result_prediction : Prediction
}.

(** The component's state hooks *)
Record State := mkState {
  file : option File;
  preview : option string;
  loading : bool;
  result : option AnalysisResult;
  mode : Mode;
  error : option string
}.

(** [useState] initial values *)
Definition initial : State :=
  mkState None None false None standard None.

(** [s.startsWith(prefix)] *)
Definition startsWith (s prefix : string) : bool := String.prefix prefix s.

(** JavaScript [a || b] on an optional string: [undefined] and the empty
    string are falsy. *)
Definition or_else (a : option string) (b : string) : string :=
  match a with
  | None => b
  | Some EmptyString => b
  | Some s => s
  end.

(** The state setters returned by [useState] *)
Definition setFile (f : option File) (st : State) : State :=
  mkState f (preview st) (loading st) (result st) (mode st) (error st).
Definition setPreview (u : option string) (st : State) : State :=
  mkState (file st) u (loading st) (result st) (mode st) (error st).
Definition setLoading (b : bool) (st : State) : State :=
  mkState (file st) (preview st) b (result st) (mode st) (error st).
Definition setResult (r : option AnalysisResult) (st : State) : State :=
  mkState (file st) (preview st) (loading st) r (mode st) (error st).
Definition setMode (m : Mode) (st : State) : State :=
  mkState (file st) (preview st) (loading st) (result st) m (error st).
Definition setError (e : option string) (st : State) : State :=
  mkState (file st) (preview st) (loading st) (result st) (mode st) e.

Section Handlers.

(** [URL.createObjectURL], supplied by the browser *)
Variable createObjectURL : File -> string.

(** [handleFileChange]; [files] is [e.target.files] *)
Definition handleFileChange (files : list File) (st : State) : State :=
  match files with
  | selectedFile :: _ =>
      let st := setFile (Some selectedFile) st in
      let st := setResult None st in
      let st := setError None st in
      let objectUrl := createObjectURL selectedFile in
      setPreview (Some objectUrl) st
  | [] => st
  end.

(** [handleDrop]; [files] is [e.dataTransfer.files] *)
Definition handleDrop (files : list File) (st : State) : State :=
  match files with
  | selectedFile :: _ =>
      let st := setFile (Some selectedFile) st in
      let st := setResult None st in
      let st := setError None st in
      let objectUrl := createObjectURL selectedFile in
      setPreview (Some objectUrl) st
  | [] => st
  end.

End Handlers.

(** [clearFile] *)
Definition clearFile (st : State) : State :=
  let st := setFile None st in
  let st := setPreview None st in
  let st := setResult None st in
  setError None st.

(** Endpoint selection of [analyzeFile] *)
Definition baseEndpoint (m : Mode) : string :=
  match m with
  | enhanced => "/api/v1/analyze/advanced"
  | standard => "/api/v1/analyze"
  end.

Definition typeEndpoint (m : Mode) (mime : string) : string :=
  let isVideo := startsWith mime "video/" in
  let isAudio := startsWith mime "audio/" in
  let typeEndpoint := "/image/"%string in
  let typeEndpoint := if isVideo then "/video/"%string else typeEndpoint in
  let typeEndpoint := if isAudio then "/audio/"%string else typeEndpoint in
  let typeEndpoint :=
    if (isAudio && match m with enhanced => true | standard => false end)%bool
    then "/audio/"%string else typeEndpoint in
  typeEndpoint.

(** The path part of the URL passed to [fetch] *)
Definition request_path (m : Mode) (mime : string) : string :=
  (baseEndpoint m ++ typeEndpoint m mime)%string.

Definition request_url (m : Mode) (mime : string) : string :=
  ("http://127.0.0.1:8000" ++ request_path m mime)%string.

(** The parsed response body: [data.detail], and [data] read as a result *)
Record ResponseData := mkData {
  detail : option string;
  as_result : AnalysisResult
}.

(** How the awaited part of [analyzeFile] ends: a response whose JSON was
    parsed, with [response.ok], or an exception ([fetch] rejecting, the
    30 s abort, a body that is not JSON) carrying [err.message]. *)
Inductive FetchOutcome :=
| Responded (ok : bool) (data : ResponseData)
| Threw (message : option string).

(** [analyzeFile], as the state it leaves once the request has settled:
    the [try] body, the [catch] and the [finally] in turn. *)
Definition analyzeFile (outcome : FetchOutcome) (st : State) : State :=
  match file st with
  | None => st
  | Some _ =>
      let st := setLoading true st in
      let st := setError None st in
      let st :=
        match outcome with
        | Responded true data => setResult (Some (as_result data)) st
        | Responded false data =>
            let thrown := or_else (detail data) "Analysis failed" in
            setError (Some (or_else (Some thrown)
                                    "An error occurred during analysis")) st
        | Threw message =>
            setError (Some (or_else message
                                    "An error occurred during analysis")) st
        end in
      setLoading false st
  end.

(** The preview element chosen for the selected file *)
Definition preview_element (mime : string) : string :=
  if startsWith mime "video/" then "video"%string
  else if startsWith mime "audio/" then "audio"%string
  else "img"%string.

(** Icon of the result header: [classification === 'AUTHENTIC'] *)
Definition header_icon (classification : string) : string :=
  if String.eqb classification "AUTHENTIC"
  then "CheckCircle"%string else "AlertTriangle"%string.

(** Colour of the meter: [risk_score > 50 ? '#ef4444' : '#10b981'] *)
Definition meter_color (risk_score : Q) : string :=
  if Qlt_le_dec 50 risk_score then "#ef4444"%string else "#10b981"%string.

(** What can happen to the page: the user picks or drops files, clears
    the selection, switches mode, or starts an analysis, which settles
    with some outcome before the controls are shown again (while
    [loading] holds only the loading animation is rendered). *)
Inductive Event :=
| FileChosen (files : list File)
| FileDropped (files : list File)
| Cleared
| ModeSet (m : Mode)
| Analyzed (outcome : FetchOutcome).

Definition step (createObjectURL : File -> string)
           (st : State) (e : Event) : State :=
  match e with
  | FileChosen files => handleFileChange createObjectURL files st
  | FileDropped files => handleDrop createObjectURL files st
  | Cleared => clearFile st
  | ModeSet m => setMode m st
  | Analyzed outcome => analyzeFile outcome st
  end.

Definition run (createObjectURL : File -> string)
           (events : list Event) : State :=
  fold_left (step createObjectURL) events initial.

(** What holds of the page whenever its controls are shown *)
Definition consistent (createObjectURL : File -> string) (st : State) : Prop :=
  loading st = false /\
  (forall f, file st = Some f -> preview st = Some (createObjectURL f)) /\
  (file st = None ->
   preview st = None /\ result st = None /\ error st = None).

End AnalyzePage.

(** ** Endpoint tables of the reference document *)
Definition standard_endpoints : list string :=
  ["/api/v1/analyze/image/"; "/api/v1/analyze/video/";
   "/api/v1/analyze/audio/"]%string.

Definition enhanced_endpoints : list string :=
  ["/api/v1/analyze/advanced/image/"; "/api/v1/analyze/advanced/video/";
   "/api/v1/analyze/advanced/status"]%string.

(** ** Outputs documented for the two detectors *)



(** ** [fuse_image_signals] as a program

    The statements of the function, run by an interpreter of the fragment
    of Python they use, with the module's globals and the builtins as an
    explicit ambient state.  A name is local when it is a parameter or is
    assigned in the body, and is otherwise looked up in the globals and
    then in the builtins, which is how [abs] is found.  [None] stands for
    a raised exception. *)
Module FusionProgram.

Local Open Scope string_scope.

Inductive value :=
| VNone
| VNum (q : Q)
| VBool (b : bool)
| VDict (items : dict)
| VBuiltinAbs
with dict :=
| Empty
| Item (key : string) (v : value) (rest : dict).

Inductive expr :=
| Num (q : Q)
| Name (x : string)
| Subscript (e : expr) (key : string)
| Sub (a b : expr)
| Add (a b : expr)
| Mul (a b : expr)
| Lt (a b : expr)
| Call (f arg : expr).

Inductive stmt :=
| Assign (x : string) (e : expr)
| GlobalAssign (x : string) (e : expr)
| If (c : expr) (body orelse : stmt)
| Seq (s1 s2 : stmt)
| Return (e : expr).

Record fundef := mkFun {
  params : list string;
  body : stmt
}.

(** The state a function can see besides its arguments *)
Record Ambient := mkAmbient {
  globals : dict;
  builtins : dict
}.

Fixpoint lookup (x : string) (d : dict) : option value :=
  match d with
  | Empty => None
  | Item y v rest => if String.eqb x y then Some v else lookup x rest
  end.

Definition resolve (amb : Ambient) (x : string) : option value :=
  match lookup x (globals amb) with
  | Some v => Some v
  | None => lookup x (builtins amb)
  end.

Fixpoint assigned (s : stmt) : list string :=
  match s with
  | Assign x _ => [x]
  | GlobalAssign _ _ => []
  | If _ s1 s2 => assigned s1 ++ assigned s2
  | Seq s1 s2 => assigned s1 ++ assigned s2
  | Return _ => []
  end.

Definition local_names (f : fundef) : list string :=
  params f ++ assigned (body f).

Definition is_local (names : list string) (x : string) : bool :=
  existsb (String.eqb x) names.

Fixpoint eval (names : list string) (amb : Ambient) (loc : dict) (e : expr)
  : option value :=
  match e with
  | Num q => Some (VNum q)
  | Name x => if is_local names x then lookup x loc else resolve amb x
  | Subscript e key =>
      match eval names amb loc e with
      | Some (VDict items) => lookup key items
      | _ => None
      end
  | Sub a b =>
      match eval names amb loc a, eval names amb loc b with
      | Some (VNum x), Some (VNum y) => Some (VNum (x - y))
      | _, _ => None
      end
  | Add a b =>
      match eval names amb loc a, eval names amb loc b with
      | Some (VNum x), Some (VNum y) => Some (VNum (x + y))
      | _, _ => None
      end
  | Mul a b =>
      match eval names amb loc a, eval names amb loc b with
      | Some (VNum x), Some (VNum y) => Some (VNum (x * y))
      | _, _ => None
      end
  | Lt a b =>
      match eval names amb loc a, eval names amb loc b with
      | Some (VNum x), Some (VNum y) =>
          Some (VBool (if Qlt_le_dec x y then true else false))
      | _, _ => None
      end
  | Call f arg =>
      match eval names amb loc f, eval names amb loc arg with
      | Some VBuiltinAbs, Some (VNum x) => Some (VNum (Qabs x))
      | _, _ => None
      end
  end.

Inductive outcome :=
| Continue (loc : dict) (amb : Ambient)
| Returned (v : value) (amb : Ambient).

Fixpoint exec (names : list string) (amb : Ambient) (loc : dict) (s : stmt)
  : option outcome :=
  match s with
  | Assign x e =>
      match eval names amb loc e with
      | Some v => Some (Continue (Item x v loc) amb)
      | None => None
      end
  | GlobalAssign x e =>
      match eval names amb loc e with
      | Some v =>
          Some (Continue loc (mkAmbient (Item x v (globals amb))
                                         (builtins amb)))
      | None => None
      end
  | If c s1 s2 =>
      match eval names amb loc c with
      | Some (VBool true) => exec names amb loc s1
      | Some (VBool false) => exec names amb loc s2
      | _ => None
      end
  | Seq s1 s2 =>
      match exec names amb loc s1 with
      | Some (Continue loc' amb') => exec names amb' loc' s2
      | other => other
      end
  | Return e =>
      match eval names amb loc e with
      | Some v => Some (Returned v amb)
      | None => None
      end
  end.

Fixpoint bind_params (ps : list string) (args : list value) : option dict :=
  match ps, args with
  | [], [] => Some Empty
  | p :: ps', a :: args' =>
      match bind_params ps' args' with
      | Some loc => Some (Item p a loc)
      | None => None
      end
  | _, _ => None
  end.

(** A call: the returned value and the ambient state it leaves *)
Definition call (f : fundef) (args : list value) (amb : Ambient)
  : option (value * Ambient) :=
  match bind_params (params f) args with
  | None => None
  | Some loc =>
      match exec (local_names f) amb loc (body f) with
      | Some (Returned v amb') => Some (v, amb')
      | Some (Continue _ amb') => Some (VNone, amb')
      | None => None
      end
  end.

(** The function, statement by statement *)
Definition fuse_image_signals_def : fundef :=
  mkFun ["visual_result"; "forensic_result"]
    (Seq (Assign "visual_weight" (Num (70 # 100)))
    (Seq (Assign "forensic_weight" (Num (30 # 100)))
    (Seq (Assign "visual_score"
            (Subscript (Subscript (Name "visual_result") "prediction")
                       "fake_probability"))
    (Seq (Assign "forensic_score"
            (Subscript (Subscript (Name "forensic_result") "prediction")
                       "fake_probability"))
    (Seq (If (Lt (Call (Name "abs")
                       (Sub (Name "forensic_score") (Num (5 # 10))))
                 (Num (1 # 100)))
             (Assign "final_score" (Name "visual_score"))
             (Assign "final_score"
                (Add (Mul (Name "visual_score") (Name "visual_weight"))
                     (Mul (Name "forensic_score") (Name "forensic_weight")))))
    (Seq (Assign "risk_score" (Mul (Name "final_score") (Num 100)))
         (Return (Name "risk_score")))))))).

(** A detector result as the dictionary the function subscripts *)
Definition result_dict (r : SignalResult) : value :=
  VDict (Item "prediction"
           (VDict (Item "fake_probability"
                        (VNum (fake_probability (prediction r)))
                  (Item "real_probability"
                        (VNum (real_probability (prediction r)))
                   Empty)))
         Empty).

(** The names an expression or statement reads *)
Fixpoint expr_names (e : expr) : list string :=
  match e with
  | Num _ => []
  | Name x => [x]
  | Subscript e _ => expr_names e
  | Sub a b | Add a b | Mul a b | Lt a b | Call a b =>
      expr_names a ++ expr_names b
  end.

Fixpoint stmt_names (s : stmt) : list string :=
  match s with
  | Assign _ e | GlobalAssign _ e | Return e => expr_names e
  | If c s1 s2 => expr_names c ++ stmt_names s1 ++ stmt_names s2
  | Seq s1 s2 => stmt_names s1 ++ stmt_names s2
  end.

Fixpoint writes_globals (s : stmt) : bool :=
  match s with
  | GlobalAssign _ _ => true
  | Assign _ _ | Return _ => false
  | If _ s1 s2 | Seq s1 s2 => (writes_globals s1 || writes_globals s2)%bool
  end.

(** Two runs end alike and each leaves its ambient state as it found it *)
Definition same_outcome (amb1 amb2 : Ambient)
           (o1 o2 : option outcome) : Prop :=
  match o1, o2 with
  | None, None => True
  | Some (Continue l1 a1), Some (Continue l2 a2) =>
      l1 = l2 /\ a1 = amb1 /\ a2 = amb2
  | Some (Returned v1 a1), Some (Returned v2 a2) =>
      v1 = v2 /\ a1 = amb1 /\ a2 = amb2
  | _, _ => False
  end.

Definition same_call (amb1 amb2 : Ambient)
           (r1 r2 : option (value * Ambient)) : Prop :=
  match r1, r2 with
  | None, None => True
  | Some (v1, a1), Some (v2, a2) => v1 = v2 /\ a1 = amb1 /\ a2 = amb2
  | _, _ => False
  end.

End FusionProgram.

(** * Properties *)

(** ** Classification rules *)
Section ClassificationRules.

Lemma visual_classification_manipulated (r : Q) :
  VisualDetector.classification r = "MANIPULATED"%string <-> 50 <= r.
Proof.
  unfold VisualDetector.classification.
  destruct (Qle_bool 50 r) eqn:E.
  - apply Qle_bool_iff in E. split; auto.
  - split; [discriminate|].
    intros H. apply Qle_bool_iff in H. congruence.
Qed.

Lemma threshold_classification_manipulated (r : Q) :
  threshold_classification r = "MANIPULATED"%string <-> 50 < r.
Proof.
  unfold threshold_classification.
  destruct (Qlt_le_dec 50 r) as [H|H].
  - split; auto.
  - split; [discriminate|]. intros H'. lra.
Qed.

Lemma threshold_classification_authentic (r : Q) :
  threshold_classification r = "AUTHENTIC"%string <-> r <= 50.
Proof.
  unfold threshold_classification.
  destruct (Qlt_le_dec 50 r) as [H|H].
  - split; [discriminate|]. intros H'. lra.
  - split; auto.
Qed.

Lemma visual_risk_score_branches (predicted_class : nat) (prob_real : Q) :
  VisualDetector.risk_score predicted_class prob_real = (1 - prob_real) * 100.
Proof.
  unfold VisualDetector.risk_score.
  destruct ((predicted_class =? 0)%nat || (predicted_class =? 1)%nat)%bool;
    reflexivity.
Qed.

(** Away from the boundary the visual detector and the threshold rule of
    the plans give the same label. *)
Lemma visual_agrees_off_threshold (r : Q) :
  ~ r == 50 ->
  VisualDetector.classification r = threshold_classification r.
Proof.
  intros Hne.
  unfold VisualDetector.classification, threshold_classification.
  destruct (Qle_bool 50 r) eqn:E; destruct (Qlt_le_dec 50 r) as [H|H];
    try reflexivity.
  - apply Qle_bool_iff in E. exfalso. apply Hne. lra.
  - assert (Qle_bool 50 r = true) by (apply Qle_bool_iff; lra). congruence.
Qed.

(** C1: at a risk score of exactly 50 (P(real) = 0.5) the visual
    detector's rule [risk_score >= 50] labels the input MANIPULATED,
    whatever the predicted class, whereas the strict threshold rule
    stated by the claim and by both integration plans labels the same
    score AUTHENTIC. *)
Theorem visual_classification_at_50 (predicted_class : nat) :
  VisualDetector.risk_score predicted_class (1 # 2) == 50 /\
  VisualDetector.classification
    (VisualDetector.risk_score predicted_class (1 # 2))
  = "MANIPULATED"%string /\
  threshold_classification
    (VisualDetector.risk_score predicted_class (1 # 2))
  = "AUTHENTIC"%string.
Proof.
  rewrite visual_risk_score_branches.
  split; [|split]; vm_compute; reflexivity.
Qed.

(** C9: for the binary temporal detector, when the two class
    probabilities sum to 1, the implemented rule (MANIPULATED when
    [prob_fake > prob_real]) gives the same label as the threshold rule
    on [risk_score = prob_fake * 100] (MANIPULATED when above 50). *)
Theorem temporal_rule_is_threshold_rule (prob_real prob_fake : Q) :
  prob_real + prob_fake == 1 ->
  TemporalDetector.classification prob_real prob_fake =
  threshold_classification (TemporalDetector.risk_score prob_fake).
Proof.
  intros Hsum.
  unfold TemporalDetector.classification, threshold_classification,
    TemporalDetector.risk_score.
  destruct (Qlt_le_dec prob_real prob_fake) as [H|H];
    destruct (Qlt_le_dec 50 (prob_fake * 100)) as [H'|H'];
    try reflexivity; exfalso; lra.
Qed.

Lemma temporal_rule_is_threshold_rule_witness :
  (1 # 4) + (3 # 4) == 1 /\
  TemporalDetector.classification (1 # 4) (3 # 4) =
  threshold_classification (TemporalDetector.risk_score (3 # 4)).
Proof.
  split.
  - reflexivity.
  - apply (temporal_rule_is_threshold_rule (1 # 4) (3 # 4)). reflexivity.
Defined.

End ClassificationRules.

(** ** Confidence tiers *)
Section ConfidenceTiers.

Lemma confidence_cases (prob_real prob_fake : Q) :
  (85 # 100 <= Qmax prob_real prob_fake /\
   TemporalDetector.confidence prob_real prob_fake = "HIGH"%string) \/
  (65 # 100 <= Qmax prob_real prob_fake /\
   Qmax prob_real prob_fake < 85 # 100 /\
   TemporalDetector.confidence prob_real prob_fake = "MEDIUM"%string) \/
  (Qmax prob_real prob_fake < 65 # 100 /\
   TemporalDetector.confidence prob_real prob_fake = "LOW"%string).
Proof.
  unfold TemporalDetector.confidence. cbv zeta.
  destruct (Qle_bool (85 # 100) (Qmax prob_real prob_fake)) eqn:E1.
  - left. apply Qle_bool_iff in E1. auto.
  - right.
    assert (H1 : Qmax prob_real prob_fake < 85 # 100).
    { apply Qnot_le_lt. intros H. apply Qle_bool_iff in H. congruence. }
    destruct (Qle_bool (65 # 100) (Qmax prob_real prob_fake)) eqn:E2.
    + left. apply Qle_bool_iff in E2. auto.
    + right. split; [|reflexivity].
      apply Qnot_le_lt. intros H. apply Qle_bool_iff in H. congruence.
Qed.

Lemma confidence_in_schema (prob_real prob_fake : Q) :
  In (TemporalDetector.confidence prob_real prob_fake) response_confidences.
Proof.
  destruct (confidence_cases prob_real prob_fake) as [[_ E]|[[_ [_ E]]|[_ E]]];
    rewrite E; simpl; auto.
Qed.



End ConfidenceTiers.

(** ** Collapse of the class distribution to one fake probability *)
Section CollapseRules.

(** C7: the three-class visual detector derives its score from
    [1 - P(real)] in both branches of its risk calculation, whatever the
    predicted class; this is the plan's [P(Deepfake) + P(Artificial)]
    when the three probabilities sum to 1; the binary temporal detector
    derives it from [P(fake)]; equal inputs give equal scores. *)
Theorem collapse_rules
        (predicted_class : nat) (p : VisualDetector.ClassProbabilities)
        (prob_fake : Q) :
  VisualDetector.risk_score predicted_class (VisualDetector.prob_real p)
    == (1 - VisualDetector.prob_real p) * 100 /\
  (VisualDetector.prob_artificial p + VisualDetector.prob_deepfake p
     + VisualDetector.prob_real p == 1 ->
   VisualDetector.risk_score predicted_class (VisualDetector.prob_real p)
     == VisualDetector.plan_risk_score p) /\
  TemporalDetector.risk_score prob_fake == prob_fake * 100 /\
  (forall c' q', VisualDetector.prob_real p == q' ->
     VisualDetector.risk_score predicted_class (VisualDetector.prob_real p)
       == VisualDetector.risk_score c' q') /\
  (forall q', prob_fake == q' ->
     TemporalDetector.risk_score prob_fake == TemporalDetector.risk_score q').
Proof.
  rewrite visual_risk_score_branches.
  unfold VisualDetector.plan_risk_score, TemporalDetector.risk_score.
  split; [|split; [|split; [|split]]].
  - reflexivity.
  - intros Hsum. lra.
  - reflexivity.
  - intros c' q' Hq. rewrite visual_risk_score_branches. lra.
  - intros q' Hq. lra.
Qed.

Lemma collapse_rules_witness :
  (12 # 100) + (70 # 100) + (18 # 100) == 1 /\
  VisualDetector.risk_score 1 (18 # 100) == 82 /\
  VisualDetector.plan_risk_score
    (VisualDetector.mkProbs (12 # 100) (70 # 100) (18 # 100)) == 82.
Proof.
  pose proof (collapse_rules 1
                (VisualDetector.mkProbs (12 # 100) (70 # 100) (18 # 100))
                (85 # 100)) as [H1 [H2 _]].
  simpl in H1, H2.
  assert (Hs : (12 # 100) + (70 # 100) + (18 # 100) == 1) by reflexivity.
  split; [exact Hs|]. split.
  - rewrite H1. reflexivity.
  - rewrite <- (H2 Hs). rewrite H1. reflexivity.
Defined.

End CollapseRules.

(** ** Fusion of the image signals *)
Section Fusion.

Import FusionEngine.

Lemma is_neutral_true (score : Q) :
  is_neutral score = true <-> Qabs (score - (5 # 10)) < 1 # 100.
Proof.
  unfold is_neutral.
  destruct (Qlt_le_dec (Qabs (score - (5 # 10))) (1 # 100)) as [H|H].
  - split; auto.
  - split; [discriminate|]. intros H'. lra.
Qed.

Lemma is_neutral_band (score : Q) :
  is_neutral score = true <-> 49 # 100 < score /\ score < 51 # 100.
Proof.
  rewrite is_neutral_true, Qabs_Qlt_condition. split; intros [H1 H2]; split; lra.
Qed.

Lemma is_neutral_compat (s s' : Q) : s == s' -> is_neutral s = is_neutral s'.
Proof.
  intros Hs.
  destruct (is_neutral s) eqn:E; destruct (is_neutral s') eqn:E';
    try reflexivity; exfalso.
  - apply is_neutral_band in E.
    assert (is_neutral s' = true) by (apply is_neutral_band; lra).
    congruence.
  - apply is_neutral_band in E'.
    assert (is_neutral s = true) by (apply is_neutral_band; lra).
    congruence.
Qed.

(** The source function is the weighted body at its configured weights. *)
Lemma fuse_image_signals_weighted (visual_result forensic_result : SignalResult) :
  fuse_image_signals visual_result forensic_result =
  fuse_signals_weighted visual_weight forensic_weight
    (fake_probability (prediction visual_result))
    (fake_probability (prediction forensic_result)).
Proof.
  unfold fuse_image_signals, fuse_signals_weighted, is_neutral.
  cbv zeta.
  destruct (Qlt_le_dec
              (Qabs (fake_probability (prediction forensic_result) - (5 # 10)))
              (1 # 100)); reflexivity.
Qed.

Lemma fuse_neutral (wv wf v f : Q) :
  is_neutral f = true -> fuse_signals_weighted wv wf v f = v * 100.
Proof. intros H. unfold fuse_signals_weighted. rewrite H. reflexivity. Qed.

Lemma fuse_informative (wv wf v f : Q) :
  is_neutral f = false ->
  fuse_signals_weighted wv wf v f = (v * wv + f * wf) * 100.
Proof. intros H. unfold fuse_signals_weighted. rewrite H. reflexivity. Qed.

Lemma fuse_signals_weighted_compat (wv wv' wf wf' v v' f f' : Q) :
  wv == wv' -> wf == wf' -> v == v' -> f == f' ->
  fuse_signals_weighted wv wf v f == fuse_signals_weighted wv' wf' v' f'.
Proof.
  intros Hwv Hwf Hv Hf.
  pose proof (is_neutral_compat f f' Hf) as Hn.
  destruct (is_neutral f) eqn:E.
  - rewrite (fuse_neutral wv wf v f E).
    rewrite (fuse_neutral wv' wf' v' f' (eq_sym Hn)). lra.
  - rewrite (fuse_informative wv wf v f E).
    rewrite (fuse_informative wv' wf' v' f' (eq_sym Hn)).
    rewrite Hwv, Hwf, Hv, Hf. reflexivity.
Qed.

(** *** The renormalised combination of the specification *)





Lemma reference_single (w p : Q) :
  ~ w == 0 -> Reference.fused_fake_probability [(w, p)] == p.
Proof.
  intros Hw. unfold Reference.fused_fake_probability, Reference.weight_sum.
  simpl. field. lra.
Qed.

Lemma reference_pair (w1 p1 w2 p2 : Q) :
  w1 + w2 == 1 ->
  Reference.fused_fake_probability [(w1, p1); (w2, p2)] == p1 * w1 + p2 * w2.
Proof.
  intros Hs. unfold Reference.fused_fake_probability, Reference.weight_sum.
  simpl.
  assert (Ht : w1 + (w2 + 0) == 1) by lra.
  rewrite Ht. field.
Qed.

(** For weights that sum to 1 the source's formula is the renormalised
    combination over the signals that contribute. *)
Lemma fuse_is_reference (wv wf v f : Q) :
  ~ wv == 0 -> wv + wf == 1 ->
  fuse_signals_weighted wv wf v f
  == Reference.fused_fake_probability (contributing_signals wv wf v f) * 100.
Proof.
  intros Hwv Hs. unfold contributing_signals.
  destruct (is_neutral f) eqn:E.
  - rewrite (fuse_neutral wv wf v f E), (reference_single wv v Hwv).
    reflexivity.
  - rewrite (fuse_informative wv wf v f E), (reference_pair wv v wf f Hs).
    reflexivity.
Qed.

Lemma fuse_bounds (wv wf v f : Q) :
  0 <= wv -> 0 <= wf -> wv + wf == 1 ->
  0 <= v <= 1 -> 0 <= f <= 1 ->
  0 <= fuse_signals_weighted wv wf v f <= 100.
Proof.
  intros Hwv Hwf Hs [Hv0 Hv1] [Hf0 Hf1].
  destruct (is_neutral f) eqn:E.
  - rewrite (fuse_neutral wv wf v f E). split; lra.
  - rewrite (fuse_informative wv wf v f E).
    assert (H1 : 0 <= v * wv) by (apply Qmult_le_0_compat; assumption).
    assert (H2 : 0 <= f * wf) by (apply Qmult_le_0_compat; assumption).
    assert (H3 : 0 <= (1 - v) * wv) by (apply Qmult_le_0_compat; lra).
    assert (H4 : 0 <= (1 - f) * wf) by (apply Qmult_le_0_compat; lra).
    split; lra.
Qed.

Lemma clamp_inside (lo hi x : Q) :
  lo <= x -> x <= hi -> Reference.clamp lo hi x == x.
Proof.
  intros Hlo Hhi. unfold Reference.clamp.
  rewrite (Q.min_r hi x Hhi). apply Q.max_r. assumption.
Qed.

End Fusion.

(** ** What the fusion engine guarantees *)
Section FusionGuarantees.

Import FusionEngine.

Lemma inconclusive_not_in_schema :
  ~ In "INCONCLUSIVE"%string response_classifications.
Proof.
  unfold response_classifications. simpl.
  intros [H|[H|[H|[]]]]; discriminate.
Qed.

(** C2 (counterexample): with both detectors reporting the neutral 0.5,
    so that none carries a signal, fusion returns the numeric risk score
    50, not INCONCLUSIVE, and INCONCLUSIVE is not a value of the response
    schema's [classification] field. *)
Lemma both_neutral_returns_50 :
  is_neutral (fake_score (signal (5 # 10))) = true /\
  fuse_image_signals (signal (5 # 10)) (signal (5 # 10)) == 50 /\
  ~ In "INCONCLUSIVE"%string response_classifications.
Proof.
  split; [reflexivity|]. split; [reflexivity|].
  apply inconclusive_not_in_schema.
Qed.

(** C2 (as amended): when every detector reports a neutral output, that
    is a fake probability within 0.01 of 0.5, fusion drops the forensic
    signal and returns the visual detector's fake probability times 100
    as the risk score, a value between 49 and 51, rather than
    INCONCLUSIVE, which the response schema does not list. *)
Theorem all_neutral_returns_visual_score
        (visual_result forensic_result : SignalResult) :
  Qabs (fake_score visual_result - (5 # 10)) < 1 # 100 ->
  Qabs (fake_score forensic_result - (5 # 10)) < 1 # 100 ->
  fuse_image_signals visual_result forensic_result
  == fake_score visual_result * 100 /\
  49 <= fuse_image_signals visual_result forensic_result <= 51 /\
  ~ In "INCONCLUSIVE"%string response_classifications.
Proof.
  intros Hv Hf.
  apply is_neutral_true in Hv. apply is_neutral_band in Hv.
  apply is_neutral_true in Hf.
  rewrite fuse_image_signals_weighted.
  fold (fake_score visual_result) (fake_score forensic_result).
  rewrite (fuse_neutral _ _ _ _ Hf).
  split; [reflexivity|]. split; [split; lra|].
  apply inconclusive_not_in_schema.
Qed.

Lemma all_neutral_returns_visual_score_witness :
  Qabs (fake_score (signal (505 # 1000)) - (5 # 10)) < 1 # 100 /\
  Qabs (fake_score (signal (495 # 1000)) - (5 # 10)) < 1 # 100 /\
  fuse_image_signals (signal (505 # 1000)) (signal (495 # 1000))
  == fake_score (signal (505 # 1000)) * 100.
Proof.
  assert (Hv : Qabs (fake_score (signal (505 # 1000)) - (5 # 10)) < 1 # 100)
    by reflexivity.
  assert (Hf : Qabs (fake_score (signal (495 # 1000)) - (5 # 10)) < 1 # 100)
    by reflexivity.
  split; [exact Hv|]. split; [exact Hf|].
  exact (proj1 (all_neutral_returns_visual_score
                  (signal (505 # 1000)) (signal (495 # 1000)) Hv Hf)).
Defined.

(** C3 (counterexample): a visual signal of exactly 0.5 is not dropped.
    With the forensic signal at 0.9 the source returns 62, whereas the
    combination over the forensic signal alone is 90. *)
Lemma neutral_visual_still_counted :
  is_neutral (fake_score (signal (5 # 10))) = true /\
  fuse_image_signals (signal (5 # 10)) (signal (9 # 10)) == 62 /\
  Reference.risk_score [(forensic_weight, fake_score (signal (9 # 10)))]
  == 90 /\
  ~ fuse_image_signals (signal (5 # 10)) (signal (9 # 10))
    == Reference.risk_score
         [(forensic_weight, fake_score (signal (9 # 10)))].
Proof.
  repeat split; try (vm_compute; reflexivity).
  intros H. vm_compute in H. discriminate.
Qed.

(** C3 (as amended): when the forensic signal is neutral, that is within
    0.01 of 0.5, the fused risk score is the visual score times 100, the
    same as the renormalised combination over the visual signal alone:
    the neutral forensic signal is left out of the weighted sum. *)
Theorem neutral_forensic_is_omitted (visual_result forensic_result : SignalResult) :
  Qabs (fake_score forensic_result - (5 # 10)) < 1 # 100 ->
  fuse_image_signals visual_result forensic_result
  == fake_score visual_result * 100 /\
  fuse_image_signals visual_result forensic_result
  == Reference.fused_fake_probability
       [(visual_weight, fake_score visual_result)] * 100 /\
  contributing_signals visual_weight forensic_weight
    (fake_score visual_result) (fake_score forensic_result)
  = [(visual_weight, fake_score visual_result)].
Proof.
  intros Hn. apply is_neutral_true in Hn.
  rewrite fuse_image_signals_weighted.
  fold (fake_score visual_result) (fake_score forensic_result).
  rewrite (fuse_neutral _ _ _ _ Hn).
  split; [reflexivity|split].
  - rewrite reference_single; [reflexivity|].
    intros H. vm_compute in H. discriminate.
  - unfold contributing_signals. rewrite Hn. reflexivity.
Qed.

Lemma neutral_forensic_is_omitted_witness :
  Qabs (fake_score (signal (5 # 10)) - (5 # 10)) < 1 # 100 /\
  fuse_image_signals (signal (9 # 10)) (signal (5 # 10)) == (9 # 10) * 100.
Proof.
  assert (Hn : Qabs (fake_score (signal (5 # 10)) - (5 # 10)) < 1 # 100)
    by reflexivity.
  split; [exact Hn|].
  exact (proj1 (neutral_forensic_is_omitted
                  (signal (9 # 10)) (signal (5 # 10)) Hn)).
Defined.

End FusionGuarantees.

(** ** Weights, ranges and repeatability *)
Section FusionPolicy.

Import FusionEngine.

(** The configured weights, standard and enhanced, are non-negative and
    sum to 1. *)
Lemma configured_weights_sum_to_one :
  0 <= visual_weight /\ 0 <= forensic_weight /\
  visual_weight + forensic_weight == 1.
Proof. repeat split; try discriminate. Qed.

Lemma enhanced_weights_sum_to_one :
  Forall (fun nw => 0 <= snd nw) WEIGHTS /\
  fold_right (fun nw acc => snd nw + acc) 0 WEIGHTS == 1.
Proof.
  split.
  - unfold WEIGHTS. repeat constructor; discriminate.
  - reflexivity.
Qed.

(** The worked scenario: weights 0.7 / 0.3, fake probabilities 0.9 and
    0.2, fused 0.69, risk score 69, MANIPULATED under either rule, MEDIUM
    confidence. *)
Example fusion_scenario_69 :
  fuse_image_signals (signal (9 # 10)) (signal (2 # 10)) == 69 /\
  VisualDetector.classification
    (fuse_image_signals (signal (9 # 10)) (signal (2 # 10)))
  = "MANIPULATED"%string /\
  threshold_classification
    (fuse_image_signals (signal (9 # 10)) (signal (2 # 10)))
  = "MANIPULATED"%string /\
  TemporalDetector.confidence (31 # 100) (69 # 100) = "MEDIUM"%string.
Proof. repeat split. Qed.

Lemma fuse_image_signals_bounds (visual_result forensic_result : SignalResult) :
  0 <= fake_score visual_result <= 1 ->
  0 <= fake_score forensic_result <= 1 ->
  0 <= fuse_image_signals visual_result forensic_result <= 100.
Proof.
  intros Hv Hf. rewrite fuse_image_signals_weighted.
  apply fuse_bounds; try assumption; try discriminate. reflexivity.
Qed.



Lemma weight_sum_nonneg (signals : list (Q * Q)) :
  Forall (fun wp => 0 <= fst wp /\ 0 <= snd wp <= 1) signals ->
  0 <= Reference.weight_sum signals.
Proof.
  induction 1 as [|[w p] l [Hw _] _ IH]; simpl in *; lra.
Qed.

Lemma reference_fold_bounds (t : Q) (signals : list (Q * Q)) :
  0 <= t ->
  Forall (fun wp => 0 <= fst wp /\ 0 <= snd wp <= 1) signals ->
  0 <= fold_right (fun wp acc => (fst wp / t) * snd wp + acc) 0 signals
    <= Reference.weight_sum signals / t.
Proof.
  intros Ht Hall. induction Hall as [|[w p] l [Hw [Hp0 Hp1]] _ IH]; simpl in *.
  - unfold Qdiv. split; lra.
  - assert (Hi : 0 <= / t) by (apply Qinv_le_0_compat; exact Ht).
    assert (Ha : 0 <= w / t) by (apply Qmult_le_0_compat; assumption).
    assert (H1 : 0 <= w / t * p) by (apply Qmult_le_0_compat; assumption).
    assert (H2 : 0 <= w / t * (1 - p)) by (apply Qmult_le_0_compat; lra).
    assert (E : (w + Reference.weight_sum l) / t
                == w / t + Reference.weight_sum l / t)
      by (unfold Qdiv; lra).
    rewrite E. destruct IH as [IH0 IH1]. split; lra.
Qed.

Lemma reference_probability_range (signals : list (Q * Q)) :
  Forall (fun wp => 0 <= fst wp /\ 0 <= snd wp <= 1) signals ->
  0 <= Reference.fused_fake_probability signals <= 1.
Proof.
  intros Hall. unfold Reference.fused_fake_probability. cbv zeta.
  pose proof (weight_sum_nonneg signals Hall) as Ht.
  pose proof (reference_fold_bounds _ signals Ht Hall) as [H0 H1].
  split; [exact H0|].
  destruct (Qeq_dec (Reference.weight_sum signals) 0) as [E|E].
  - assert (Hz : Reference.weight_sum signals / Reference.weight_sum signals
                 == 0).
    { rewrite E at 1. unfold Qdiv. lra. }
    lra.
  - assert (Ho : Reference.weight_sum signals / Reference.weight_sum signals
                 == 1) by (field; exact E).
    lra.
Qed.



(** C5: for detector fake probabilities in [0,1] the fused fake
    probability lies in [0,1] and the fused risk score, the fused
    probability times 100, lies in [0,100], so that clamping it to
    [0,100] leaves it as it is; the detectors' own risk scores lie in
    [0,100] too.  For every list of detectors with non-negative weights
    and fake probabilities in [0,1] the renormalised combination lies in
    [0,1] and its clamped risk score in [0,100]. *)
Theorem fuse_image_signals_range
        (visual_result forensic_result : SignalResult)
        (predicted_class : nat) (signals : list (Q * Q)) :
  0 <= fake_score visual_result <= 1 ->
  0 <= fake_score forensic_result <= 1 ->
  0 <= fuse_image_signals visual_result forensic_result / 100 <= 1 /\
  0 <= fuse_image_signals visual_result forensic_result <= 100 /\
  Reference.clamp 0 100 (fuse_image_signals visual_result forensic_result)
  == fuse_image_signals visual_result forensic_result /\
  0 <= VisualDetector.risk_score predicted_class
         (1 - fake_score visual_result) <= 100 /\
  0 <= TemporalDetector.risk_score (fake_score forensic_result) <= 100 /\
  (Forall (fun wp => 0 <= fst wp /\ 0 <= snd wp <= 1) signals ->
   0 <= Reference.fused_fake_probability signals <= 1 /\
   0 <= Reference.risk_score signals <= 100 /\
   Reference.risk_score signals
   == Reference.fused_fake_probability signals * 100).
Proof.
  intros Hv Hf.
  pose proof (fuse_image_signals_bounds visual_result forensic_result Hv Hf)
    as [Hlo Hhi].
  split; [|split; [|split; [|split; [|split]]]].
  - assert (E : fuse_image_signals visual_result forensic_result / 100
                == fuse_image_signals visual_result forensic_result
                   * (1 # 100)) by field.
    rewrite E. split; lra.
  - split; assumption.
  - apply clamp_inside; assumption.
  - rewrite visual_risk_score_branches. destruct Hv. split; lra.
  - unfold TemporalDetector.risk_score. destruct Hf. split; lra.
  - intros Hall.
    pose proof (reference_probability_range signals Hall) as [H0 H1].
    assert (Hc : Reference.risk_score signals
                 == Reference.fused_fake_probability signals * 100).
    { unfold Reference.risk_score. apply clamp_inside; lra. }
    split; [split; assumption|]. split; [|exact Hc].
    rewrite Hc. split; lra.
Qed.

Lemma fuse_image_signals_range_witness :
  0 <= fake_score (signal (9 # 10)) <= 1 /\
  0 <= fake_score (signal (2 # 10)) <= 1 /\
  0 <= fuse_image_signals (signal (9 # 10)) (signal (2 # 10)) <= 100.
Proof.
  assert (Hv : 0 <= fake_score (signal (9 # 10)) <= 1)
    by (split; discriminate).
  assert (Hf : 0 <= fake_score (signal (2 # 10)) <= 1)
    by (split; discriminate).
  split; [exact Hv|]. split; [exact Hf|].
  exact (proj1 (proj2 (fuse_image_signals_range
                         (signal (9 # 10)) (signal (2 # 10)) 0 [] Hv Hf))).
Defined.

End FusionPolicy.

(** ** The fusion function and its surroundings *)
Section FusionPurity.

Import FusionEngine FusionProgram.
Local Open Scope string_scope.

(** An expression that reads only locals and names on which two ambient
    states agree has the same value in both. *)
Lemma eval_same_ambient (names : list string) (amb1 amb2 : Ambient)
      (loc : dict) (e : expr) :
  (forall x, In x (expr_names e) -> is_local names x = false ->
             resolve amb1 x = resolve amb2 x) ->
  eval names amb1 loc e = eval names amb2 loc e.
Proof.
  induction e as [q|x|e IH key|a IHa b IHb|a IHa b IHb|a IHa b IHb
                  |a IHa b IHb|a IHa b IHb]; simpl; intros H;
    try reflexivity;
    try (rewrite IHa, IHb;
         [reflexivity
         |intros x Hx; apply H; apply in_or_app; right; exact Hx
         |intros x Hx; apply H; apply in_or_app; left; exact Hx]).
  - destruct (is_local names x) eqn:E; [reflexivity|].
    apply H; [left; reflexivity|exact E].
  - rewrite IH by exact H. reflexivity.
Qed.

(** A statement without a global assignment, reading only locals and
    names on which two ambient states agree, ends alike in both and
    leaves each as it found it. *)
Lemma exec_same_ambient (names : list string) (s : stmt) :
  forall (amb1 amb2 : Ambient) (loc : dict),
  writes_globals s = false ->
  (forall x, In x (stmt_names s) -> is_local names x = false ->
             resolve amb1 x = resolve amb2 x) ->
  same_outcome amb1 amb2 (exec names amb1 loc s) (exec names amb2 loc s).
Proof.
  induction s as [x e|x e|c s1 IH1 s2 IH2|s1 IH1 s2 IH2|e];
    intros amb1 amb2 loc Hw Hn; simpl in *.
  - rewrite (eval_same_ambient names amb1 amb2 loc e Hn).
    destruct (eval names amb2 loc e); simpl; auto.
  - discriminate.
  - apply orb_false_iff in Hw. destruct Hw as [Hw1 Hw2].
    rewrite (eval_same_ambient names amb1 amb2 loc c)
      by (intros x Hx; apply Hn; apply in_or_app; left; exact Hx).
    destruct (eval names amb2 loc c) as [[| |[|]| |]|]; simpl; auto.
    + apply IH1; [exact Hw1|].
      intros x Hx. apply Hn. apply in_or_app. right.
      apply in_or_app. left. exact Hx.
    + apply IH2; [exact Hw2|].
      intros x Hx. apply Hn. apply in_or_app. right.
      apply in_or_app. right. exact Hx.
  - apply orb_false_iff in Hw. destruct Hw as [Hw1 Hw2].
    assert (H1 : same_outcome amb1 amb2 (exec names amb1 loc s1)
                              (exec names amb2 loc s1)).
    { apply IH1; [exact Hw1|].
      intros x Hx. apply Hn. apply in_or_app. left. exact Hx. }
    destruct (exec names amb1 loc s1) as [[l1 a1|v1 a1]|];
      destruct (exec names amb2 loc s1) as [[l2 a2|v2 a2]|];
      simpl in H1; try contradiction; auto.
    destruct H1 as [-> [-> ->]].
    apply IH2; [exact Hw2|].
    intros x Hx. apply Hn. apply in_or_app. right. exact Hx.
  - rewrite (eval_same_ambient names amb1 amb2 loc e Hn).
    destruct (eval names amb2 loc e); simpl; auto.
Qed.

(** The only name [fuse_image_signals] takes from its surroundings is
    [abs]; it assigns no global. *)
Lemma fuse_image_signals_reads_abs_only (x : string) :
  In x (stmt_names (body fuse_image_signals_def)) ->
  is_local (local_names fuse_image_signals_def) x = false ->
  x = "abs".
Proof.
  simpl. intros Hin Hloc.
  repeat (destruct Hin as [<-|Hin];
          [try reflexivity; vm_compute in Hloc; discriminate|]).
  destruct Hin.
Qed.

Lemma fuse_image_signals_call_same (amb1 amb2 : Ambient) (args : list value) :
  resolve amb1 "abs" = resolve amb2 "abs" ->
  same_call amb1 amb2 (call fuse_image_signals_def args amb1)
                      (call fuse_image_signals_def args amb2).
Proof.
  intros Habs. unfold call.
  destruct (bind_params (params fuse_image_signals_def) args) as [loc|];
    [|exact I].
  pose proof (exec_same_ambient (local_names fuse_image_signals_def)
                (body fuse_image_signals_def) amb1 amb2 loc eq_refl) as H.
  assert (Hn : forall x,
             In x (stmt_names (body fuse_image_signals_def)) ->
             is_local (local_names fuse_image_signals_def) x = false ->
             resolve amb1 x = resolve amb2 x).
  { intros x Hin Hloc.
    rewrite (fuse_image_signals_reads_abs_only x Hin Hloc). exact Habs. }
  specialize (H Hn).
  destruct (exec (local_names fuse_image_signals_def) amb1 loc
                 (body fuse_image_signals_def)) as [[l1 a1|v1 a1]|];
    destruct (exec (local_names fuse_image_signals_def) amb2 loc
                   (body fuse_image_signals_def)) as [[l2 a2|v2 a2]|];
    simpl in *; try contradiction; try exact I.
  - destruct H as [_ [-> ->]]. auto.
  - exact H.
Qed.

(** Run on two detector results, the program returns the value of the
    function embedded above and leaves the ambient state untouched. *)
Lemma fuse_image_signals_call_value (amb : Ambient)
      (visual_result forensic_result : SignalResult) :
  resolve amb "abs" = Some VBuiltinAbs ->
  call fuse_image_signals_def
       [result_dict visual_result; result_dict forensic_result] amb
  = Some (VNum (fuse_image_signals visual_result forensic_result), amb).
Proof.
  intros Habs.
  cbv -[Qabs Qminus Qplus Qmult Qlt_le_dec resolve
        fake_probability real_probability prediction].
  rewrite Habs.
  destruct (Qlt_le_dec
              (Qabs (fake_probability (prediction forensic_result) - (5 # 10)))
              (1 # 100)); reflexivity.
Qed.

(** C8: two invocations of the fusion with the identical detector
    results return the identical risk score, whatever the module's
    globals and the builtins hold at either invocation, provided the name
    [abs] denotes the builtin [abs] in both, and neither invocation
    changes that ambient state: the function reads its two arguments, its
    own constants 0.70, 0.30, 0.5, 0.01 and 100, and [abs], and writes
    nothing.  For arguments of any shape the two invocations end alike,
    with the same value or both with an exception. *)
Theorem fusion_reads_no_hidden_state
        (amb1 amb2 : Ambient)
        (visual_result forensic_result : SignalResult)
        (args : list value) :
  resolve amb1 "abs" = Some VBuiltinAbs ->
  resolve amb2 "abs" = Some VBuiltinAbs ->
  call fuse_image_signals_def
       [result_dict visual_result; result_dict forensic_result] amb1
  = Some (VNum (fuse_image_signals visual_result forensic_result), amb1) /\
  call fuse_image_signals_def
       [result_dict visual_result; result_dict forensic_result] amb2
  = Some (VNum (fuse_image_signals visual_result forensic_result), amb2) /\
  same_call amb1 amb2 (call fuse_image_signals_def args amb1)
                      (call fuse_image_signals_def args amb2).
Proof.
  intros H1 H2.
  split; [apply fuse_image_signals_call_value; exact H1|].
  split; [apply fuse_image_signals_call_value; exact H2|].
  apply fuse_image_signals_call_same. congruence.
Qed.

Lemma fusion_reads_no_hidden_state_witness :
  resolve (mkAmbient (Item "WEIGHTS" (VNum 1) Empty)
                     (Item "abs" VBuiltinAbs Empty)) "abs"
  = Some VBuiltinAbs /\
  resolve (mkAmbient Empty (Item "abs" VBuiltinAbs Empty)) "abs"
  = Some VBuiltinAbs /\
  call fuse_image_signals_def
       [result_dict (signal (9 # 10)); result_dict (signal (2 # 10))]
       (mkAmbient (Item "WEIGHTS" (VNum 1) Empty)
                  (Item "abs" VBuiltinAbs Empty))
  = Some (VNum (fuse_image_signals (signal (9 # 10)) (signal (2 # 10))),
          mkAmbient (Item "WEIGHTS" (VNum 1) Empty)
                    (Item "abs" VBuiltinAbs Empty)).
Proof.
  assert (H1 : resolve (mkAmbient (Item "WEIGHTS" (VNum 1) Empty)
                                  (Item "abs" VBuiltinAbs Empty)) "abs"
               = Some VBuiltinAbs) by reflexivity.
  assert (H2 : resolve (mkAmbient Empty (Item "abs" VBuiltinAbs Empty)) "abs"
               = Some VBuiltinAbs) by reflexivity.
  split; [exact H1|]. split; [exact H2|].
  exact (proj1 (fusion_reads_no_hidden_state _ _
                  (signal (9 # 10)) (signal (2 # 10)) [] H1 H2)).
Defined.

End FusionPurity.

(** ** Softmax *)
Section SoftmaxProperties.

Import Softmax.
Local Open Scope R_scope.

Lemma max_from_ge_start (x : R) (xs : list R) : x <= max_from x xs.
Proof.
  revert x. induction xs as [|y ys IH]; intros x; simpl.
  - Lra.lra.
  - pose proof (IH (Rmax x y)). pose proof (Rmax_l x y). Lra.lra.
Qed.

Lemma max_from_ge (x : R) (xs : list R) (l : R) :
  In l (x :: xs) -> l <= max_from x xs.
Proof.
  revert x. induction xs as [|y ys IH]; intros x; simpl.
  - intros [H|[]]. Lra.lra.
  - intros [H|[H|H]].
    + subst l. pose proof (max_from_ge_start (Rmax x y) ys).
      pose proof (Rmax_l x y). Lra.lra.
    + subst l. pose proof (max_from_ge_start (Rmax x y) ys).
      pose proof (Rmax_r x y). Lra.lra.
    + apply IH. right. assumption.
Qed.

(** The point of subtracting the maximum: every exponent is at most 0, so
    every term of [exp_logits] lies in (0,1]. *)
Lemma shifted_exponentials_bounded (x : R) (xs : list R) (l : R) :
  In l (x :: xs) -> 0 < exp (l - max_from x xs) <= 1.
Proof.
  intros Hin. pose proof (max_from_ge x xs l Hin) as Hle. split.
  - apply exp_pos.
  - rewrite <- exp_0.
    destruct (Req_dec (l - max_from x xs) 0) as [E|E].
    + rewrite E. Lra.lra.
    + apply Rlt_le. apply exp_increasing. Lra.lra.
Qed.

Lemma sum_map_exp_shift (m : R) (ls : list R) :
  sum (map (fun l => exp (l - m)) ls) = exp (- m) * sum (map exp ls).
Proof.
  induction ls as [|l ls IH]; simpl.
  - Lra.lra.
  - rewrite IH. unfold Rminus. rewrite exp_plus. Lra.lra.
Qed.

Lemma sum_map_exp_nonneg (ls : list R) : 0 <= sum (map exp ls).
Proof.
  induction ls as [|l ls IH]; simpl.
  - Lra.lra.
  - pose proof (exp_pos l). Lra.lra.
Qed.

Lemma sum_map_exp_pos (l : R) (ls : list R) : 0 < sum (map exp (l :: ls)).
Proof.
  simpl. pose proof (exp_pos l). pose proof (sum_map_exp_nonneg ls). Lra.lra.
Qed.

Lemma exp_le_sum (l : R) (ls : list R) :
  In l ls -> exp l <= sum (map exp ls).
Proof.
  induction ls as [|a ls IH]; simpl.
  - intros [].
  - intros [H|H].
    + subst a. pose proof (sum_map_exp_nonneg ls). Lra.lra.
    + pose proof (IH H). pose proof (exp_pos a). Lra.lra.
Qed.

Lemma sum_map_div (s : R) (xs : list R) :
  sum (map (fun x => x / s) xs) = sum xs / s.
Proof.
  induction xs as [|x xs IH]; simpl.
  - unfold Rdiv. Lra.lra.
  - rewrite IH. unfold Rdiv. Lra.lra.
Qed.

Lemma stable_is_standard (l : R) (ls : list R) :
  stable_softmax (l :: ls) = Some (standard_softmax (l :: ls)).
Proof.
  unfold stable_softmax, standard_softmax.
  set (m := max_from l ls). set (logits := l :: ls).
  f_equal. rewrite map_map. apply map_ext. intros a.
  rewrite sum_map_exp_shift.
  pose proof (sum_map_exp_pos l ls) as Hpos. fold logits in Hpos.
  pose proof (exp_pos (- m)) as Hm.
  unfold Rminus. rewrite exp_plus. field. split; Lra.lra.
Qed.

Lemma standard_softmax_range (logits : list R) :
  Forall (fun p => 0 <= p <= 1) (standard_softmax logits).
Proof.
  unfold standard_softmax. apply Forall_forall. intros p Hp.
  apply in_map_iff in Hp. destruct Hp as [l [Hl Hin]]. subst p.
  pose proof (exp_le_sum l logits Hin) as Hle.
  pose proof (exp_pos l) as Hpos.
  assert (Hs : 0 < sum (map exp logits)) by Lra.lra.
  split.
  - apply Rlt_le. apply Rdiv_lt_0_compat; assumption.
  - apply (Rmult_le_reg_r (sum (map exp logits))); [assumption|].
    unfold Rdiv. rewrite Rmult_assoc, Rinv_l by Lra.lra. Lra.lra.
Qed.

Lemma standard_softmax_total (l : R) (ls : list R) :
  sum (standard_softmax (l :: ls)) = 1.
Proof.
  unfold standard_softmax.
  pose proof (sum_map_exp_pos l ls) as Hpos.
  set (logits := l :: ls) in *.
  rewrite <- (map_map exp (fun e => e / sum (map exp logits))).
  rewrite sum_map_div. field. Lra.lra.
Qed.

(** For the temporal detector's two logits the returned pair is
    [prob_real, prob_fake] with [prob_real + prob_fake = 1]. *)
Lemma binary_softmax_sums_to_one (logit_real logit_fake : R) :
  exists prob_real prob_fake,
    stable_softmax [logit_real; logit_fake] = Some [prob_real; prob_fake] /\
    prob_real + prob_fake = 1.
Proof.
  rewrite stable_is_standard.
  pose proof (standard_softmax_total logit_real [logit_fake]) as Ht.
  unfold standard_softmax in *. simpl in *.
  eexists. eexists. split; [reflexivity|]. Lra.lra.
Qed.

(** C10: on every non-empty logit vector the stable softmax
    ([exp(logits - max)] divided by its sum) returns, in exact
    arithmetic, the standard softmax of the same logits; its components
    lie in [0,1] and sum to 1. *)
Theorem stable_softmax_is_softmax (logits : list R) :
  logits <> [] ->
  exists probs,
    stable_softmax logits = Some probs /\
    probs = standard_softmax logits /\
    Forall (fun p => 0 <= p <= 1) probs /\
    sum probs = 1.
Proof.
  intros Hne. destruct logits as [|l ls]; [congruence|].
  exists (standard_softmax (l :: ls)).
  split; [apply stable_is_standard|].
  split; [reflexivity|].
  split; [apply standard_softmax_range|apply standard_softmax_total].
Qed.

Lemma stable_softmax_is_softmax_witness :
  [0; 0] <> [] /\
  exists probs,
    stable_softmax [0; 0] = Some probs /\
    probs = standard_softmax [0; 0] /\
    Forall (fun p => 0 <= p <= 1) probs /\
    sum probs = 1.
Proof.
  split.
  - discriminate.
  - apply (stable_softmax_is_softmax [0; 0]). discriminate.
Defined.

End SoftmaxProperties.

(** ** Frame sampling *)
Section FrameSamplingProperties.

Import FrameSampling.
Local Open Scope Z_scope.

Lemma frame_indices_samples (total_frames : Z) :
  frame_indices total_frames
  = map (fun k => Z.of_nat k * (total_frames - 1) / 15) (seq 0 16).
Proof.
  unfold frame_indices, linspace_int. apply map_ext. intros k.
  rewrite Z.add_0_l, Z.sub_0_r. reflexivity.
Qed.

Lemma frame_index_nth (total_frames : Z) (k : nat) :
  (k < 16)%nat ->
  nth k (frame_indices total_frames) 0
  = Z.of_nat k * (total_frames - 1) / 15.
Proof.
  intros Hk. rewrite frame_indices_samples.
  set (f := fun k : nat => Z.of_nat k * (total_frames - 1) / 15).
  rewrite (nth_indep _ 0 (f 0%nat)) by (rewrite length_map, length_seq; exact Hk).
  rewrite map_nth, seq_nth by exact Hk. reflexivity.
Qed.

Lemma sample_monotone (n : Z) (j k : nat) :
  0 <= n -> (j <= k)%nat ->
  Z.of_nat j * n / 15 <= Z.of_nat k * n / 15.
Proof.
  intros Hn Hjk. apply Z.div_le_mono; [lia|]. nia.
Qed.

Lemma sample_strict (n : Z) (j k : nat) :
  15 <= n -> (j < k)%nat ->
  Z.of_nat j * n / 15 < Z.of_nat k * n / 15.
Proof.
  intros Hn Hjk.
  assert (H1 : Z.of_nat j * n / 15 + 1 <= Z.of_nat k * n / 15).
  { replace (Z.of_nat j * n / 15 + 1) with ((Z.of_nat j * n + 1 * 15) / 15)
      by (rewrite Z.div_add by lia; reflexivity).
    apply Z.div_le_mono; [lia|]. nia. }
  lia.
Qed.

Lemma frame_indices_bounds (total_frames : Z) :
  1 <= total_frames ->
  List.length (frame_indices total_frames) = 16%nat /\
  Forall (fun i => 0 <= i <= total_frames - 1) (frame_indices total_frames).
Proof.
  intros Hn. rewrite frame_indices_samples. split.
  - rewrite length_map, length_seq. reflexivity.
  - apply Forall_forall. intros i Hi.
    apply in_map_iff in Hi. destruct Hi as [k [Hk Hin]]. subst i.
    apply in_seq in Hin. split.
    + apply Z.div_pos; [nia|lia].
    + apply Z.div_le_upper_bound; [lia|nia].
Qed.

(** X1: for a video with at least one frame, sampling yields exactly 16
    indices and every one of them is a valid frame number, between 0 and
    [total_frames - 1]. *)
Theorem frame_indices_in_range (total_frames : Z) :
  1 <= total_frames ->
  List.length (frame_indices total_frames) = 16%nat /\
  Forall (fun i => 0 <= i <= total_frames - 1) (frame_indices total_frames).
Proof.
  exact (frame_indices_bounds total_frames).
Qed.

Lemma frame_indices_in_range_witness :
  1 <= 100 /\
  Forall (fun i => 0 <= i <= 100 - 1) (frame_indices 100).
Proof.
  assert (H : 1 <= 100) by lia.
  split; [exact H|].
  exact (proj2 (frame_indices_in_range 100 H)).
Defined.

(** X2: the sample starts at the first frame, ends at the last one and
    never steps backwards. *)
Theorem frame_indices_span (total_frames : Z) :
  1 <= total_frames ->
  nth 0 (frame_indices total_frames) 0 = 0 /\
  nth 15 (frame_indices total_frames) 0 = total_frames - 1 /\
  forall j k : nat, (j <= k)%nat -> (k < 16)%nat ->
    nth j (frame_indices total_frames) 0
    <= nth k (frame_indices total_frames) 0.
Proof.
  intros Hn. split; [|split].
  - rewrite frame_index_nth by lia. reflexivity.
  - rewrite frame_index_nth by lia.
    change (Z.of_nat 15) with 15.
    rewrite Z.mul_comm. apply Z.div_mul. lia.
  - intros j k Hjk Hk.
    rewrite !frame_index_nth by lia.
    apply sample_monotone; [lia|exact Hjk].
Qed.

Lemma frame_indices_span_witness :
  1 <= 100 /\
  nth 0 (frame_indices 100) 0 = 0 /\
  nth 15 (frame_indices 100) 0 = 100 - 1.
Proof.
  assert (H : 1 <= 100) by lia.
  split; [exact H|].
  destruct (frame_indices_span 100 H) as [H0 [H15 _]].
  split; assumption.
Defined.

(** X3: the 16 sampled frames are pairwise distinct exactly when the
    video has at least 16 frames; a shorter video has some frame sampled
    more than once. *)
Theorem frame_indices_distinct_iff (total_frames : Z) :
  1 <= total_frames ->
  (NoDup (frame_indices total_frames) <-> 16 <= total_frames).
Proof.
  intros Hn. split.
  - intros Hnd.
    assert (Hincl : incl (frame_indices total_frames)
                         (map Z.of_nat (seq 0 (Z.to_nat total_frames)))).
    { intros i Hi.
      pose proof (proj2 (frame_indices_bounds total_frames Hn)) as Hall.
      rewrite Forall_forall in Hall. specialize (Hall i Hi).
      apply in_map_iff. exists (Z.to_nat i). split; [lia|].
      apply in_seq. lia. }
    pose proof (NoDup_incl_length Hnd Hincl) as Hlen.
    rewrite (proj1 (frame_indices_bounds total_frames Hn)) in Hlen.
    rewrite length_map, length_seq in Hlen. lia.
  - intros H16. apply (NoDup_nth _ 0). intros j k Hj Hk Heq.
    rewrite (proj1 (frame_indices_bounds total_frames Hn)) in Hj, Hk.
    rewrite !frame_index_nth in Heq by assumption.
    destruct (Nat.lt_trichotomy j k) as [Hlt|[He|Hgt]]; [|exact He|].
    + pose proof (sample_strict (total_frames - 1) j k ltac:(lia) Hlt). lia.
    + pose proof (sample_strict (total_frames - 1) k j ltac:(lia) Hgt). lia.
Qed.

Lemma frame_indices_distinct_iff_witness :
  1 <= 10 /\ ~ NoDup (frame_indices 10).
Proof.
  assert (H : 1 <= 10) by lia.
  split; [exact H|].
  intros Hnd. apply (frame_indices_distinct_iff 10 H) in Hnd. lia.
Defined.

End FrameSamplingProperties.

(** ** Labels and the predicted class *)
Section LabelProperties.

Import VisualLabels.

(** X4: the two label tables of the visual detector are inverse to each
    other: a label maps to a class id exactly when that id maps back to
    the label; unknown labels and ids outside 0..2 have no entry. *)
Theorem label_tables_inverse (label : string) (i : nat) :
  label2id label = Some i <-> VisualDetector.id2label i = Some label.
Proof.
  unfold label2id. split.
  - destruct (String.eqb_spec label "Artificial") as [E1|E1].
    { intros H. injection H as <-. subst label. reflexivity. }
    destruct (String.eqb_spec label "Deepfake") as [E2|E2].
    { intros H. injection H as <-. subst label. reflexivity. }
    destruct (String.eqb_spec label "Real") as [E3|E3].
    { intros H. injection H as <-. subst label. reflexivity. }
    discriminate.
  - destruct i as [|[|[|i]]]; simpl; intros H;
      try discriminate; injection H as <-; reflexivity.
Qed.

Lemma fake_class_labels (i : nat) :
  fake_class i = true <->
  VisualDetector.id2label i = Some "Artificial"%string \/
  VisualDetector.id2label i = Some "Deepfake"%string.
Proof.
  destruct i as [|[|[|i]]]; simpl;
    (split;
     [intros H; try discriminate; auto
     |intros [H|H]; try discriminate; reflexivity]).
Qed.

(** X5: for non-negative class probabilities that sum to 1, when the
    predicted class is labelled Artificial or Deepfake and its
    probability is at least that of Real, the risk score is at least 50
    and the visual detector classifies MANIPULATED; when the predicted
    class is Real and its probability is at least that of the other two,
    the risk score is at most 200/3. *)
Theorem predicted_class_and_classification
        (p : VisualDetector.ClassProbabilities) (predicted_class : nat) (q : Q) :
  0 <= VisualDetector.prob_artificial p ->
  0 <= VisualDetector.prob_deepfake p ->
  0 <= VisualDetector.prob_real p ->
  VisualDetector.prob_artificial p + VisualDetector.prob_deepfake p
    + VisualDetector.prob_real p == 1 ->
  class_probability p predicted_class = Some q ->
  (VisualDetector.id2label predicted_class <> Some "Real"%string ->
   VisualDetector.prob_real p <= q ->
   50 <= VisualDetector.risk_score predicted_class (VisualDetector.prob_real p) /\
   VisualDetector.classification
     (VisualDetector.risk_score predicted_class (VisualDetector.prob_real p))
   = "MANIPULATED"%string) /\
  (VisualDetector.id2label predicted_class = Some "Real"%string ->
   VisualDetector.prob_artificial p <= q ->
   VisualDetector.prob_deepfake p <= q ->
   VisualDetector.risk_score predicted_class (VisualDetector.prob_real p)
   <= 200 # 3).
Proof.
  intros Ha Hd Hr Hs Hq.
  rewrite visual_risk_score_branches. split.
  - intros Hlabel Hle.
    assert (H50 : 50 <= (1 - VisualDetector.prob_real p) * 100).
    { destruct predicted_class as [|[|[|k]]]; simpl in Hq, Hlabel;
        try discriminate; try congruence;
        injection Hq as <-; lra. }
    split; [exact H50|].
    apply visual_classification_manipulated. exact H50.
  - intros Hlabel Hle1 Hle2.
    destruct predicted_class as [|[|[|k]]]; simpl in Hq, Hlabel;
      try discriminate.
    injection Hq as <-. lra.
Qed.

Lemma predicted_class_and_classification_witness :
  VisualDetector.classification
    (VisualDetector.risk_score 1 (1 # 2)) = "MANIPULATED"%string.
Proof.
  refine (proj2 (proj1 (predicted_class_and_classification
            (VisualDetector.mkProbs 0 (1 # 2) (1 # 2)) 1 (1 # 2)
            _ _ _ _ _) _ _)); simpl; try discriminate; reflexivity.
Defined.

End LabelProperties.

(** ** How the two signals shape the fused score *)
Section FusionShape.

Import FusionEngine.

Lemma fuse_between (visual_result forensic_result : SignalResult) :
  Qmin (fake_score visual_result * 100) (fake_score forensic_result * 100)
  <= fuse_image_signals visual_result forensic_result /\
  fuse_image_signals visual_result forensic_result
  <= Qmax (fake_score visual_result * 100) (fake_score forensic_result * 100).
Proof.
  rewrite fuse_image_signals_weighted.
  fold (fake_score visual_result) (fake_score forensic_result).
  set (v := fake_score visual_result). set (f := fake_score forensic_result).
  assert (Hmin : Qmin (v * 100) (f * 100) <= v * 100) by apply Q.le_min_l.
  assert (Hmin' : Qmin (v * 100) (f * 100) <= f * 100) by apply Q.le_min_r.
  assert (Hmax : v * 100 <= Qmax (v * 100) (f * 100)) by apply Q.le_max_l.
  assert (Hmax' : f * 100 <= Qmax (v * 100) (f * 100)) by apply Q.le_max_r.
  destruct (is_neutral f) eqn:E.
  - rewrite (fuse_neutral _ _ _ _ E). split; assumption.
  - rewrite (fuse_informative _ _ _ _ E).
    unfold visual_weight, forensic_weight. split; lra.
Qed.

(** X6: in exact arithmetic, with the floating-point numbers of the
    source taken as rationals, the fused risk score lies between the two
    detectors' own scores (each fake probability times 100): it is never
    above both or below both. *)
Theorem fusion_between_detectors (visual_result forensic_result : SignalResult) :
  Qmin (fake_score visual_result * 100) (fake_score forensic_result * 100)
  <= fuse_image_signals visual_result forensic_result /\
  fuse_image_signals visual_result forensic_result
  <= Qmax (fake_score visual_result * 100) (fake_score forensic_result * 100).
Proof.
  exact (fuse_between visual_result forensic_result).
Qed.

(** X7: when both detectors taken alone fall on the same side of the
    threshold, the fused score falls on that side too, under the strict
    rule ([> 50]) and under the visual detector's rule ([>= 50]). *)
Theorem fusion_keeps_unanimous_label
        (visual_result forensic_result : SignalResult) (label : string) :
  (threshold_classification (fake_score visual_result * 100) = label ->
   threshold_classification (fake_score forensic_result * 100) = label ->
   threshold_classification
     (fuse_image_signals visual_result forensic_result) = label) /\
  (VisualDetector.classification (fake_score visual_result * 100) = label ->
   VisualDetector.classification (fake_score forensic_result * 100) = label ->
   VisualDetector.classification
     (fuse_image_signals visual_result forensic_result) = label).
Proof.
  pose proof (fuse_between visual_result forensic_result)
    as [Hlo Hhi].
  set (v := fake_score visual_result * 100) in *.
  set (f := fake_score forensic_result * 100) in *.
  set (r := fuse_image_signals visual_result forensic_result) in *.
  assert (Hlo' : v <= r \/ f <= r).
  { destruct (Q.min_spec v f) as [[_ E]|[_ E]]; rewrite E in Hlo; auto. }
  assert (Hhi' : r <= v \/ r <= f).
  { destruct (Q.max_spec v f) as [[_ E]|[_ E]]; rewrite E in Hhi; auto. }
  split.
  - unfold threshold_classification.
    destruct (Qlt_le_dec 50 v), (Qlt_le_dec 50 f), (Qlt_le_dec 50 r);
      intros H1 H2; try assumption; try congruence; exfalso;
      destruct Hlo'; destruct Hhi'; lra.
  - unfold VisualDetector.classification.
    destruct (Qle_bool 50 v) eqn:Ev, (Qle_bool 50 f) eqn:Ef,
             (Qle_bool 50 r) eqn:Er;
      intros H1 H2; try assumption; try congruence; exfalso.
    + apply Qle_bool_iff in Ev, Ef.
      assert (Qle_bool 50 r = true)
        by (apply Qle_bool_iff; destruct Hlo'; lra).
      congruence.
    + apply Qle_bool_iff in Er.
      destruct Hhi' as [H|H].
      * assert (Qle_bool 50 v = true) by (apply Qle_bool_iff; lra).
        congruence.
      * assert (Qle_bool 50 f = true) by (apply Qle_bool_iff; lra).
        congruence.
Qed.

Lemma fusion_keeps_unanimous_label_witness :
  threshold_classification
    (fuse_image_signals (signal (9 # 10)) (signal (6 # 10)))
  = "MANIPULATED"%string.
Proof.
  apply (proj1 (fusion_keeps_unanimous_label
                  (signal (9 # 10)) (signal (6 # 10)) "MANIPULATED"));
    reflexivity.
Defined.

(** X8: raising the visual detector's fake probability never lowers the
    fused risk score. *)
Theorem fusion_monotone_in_visual
        (visual_result visual_result' forensic_result : SignalResult) :
  fake_score visual_result <= fake_score visual_result' ->
  fuse_image_signals visual_result forensic_result
  <= fuse_image_signals visual_result' forensic_result.
Proof.
  intros Hle. rewrite !fuse_image_signals_weighted.
  fold (fake_score visual_result) (fake_score visual_result')
       (fake_score forensic_result).
  destruct (is_neutral (fake_score forensic_result)) eqn:E.
  - rewrite !(fuse_neutral _ _ _ _ E). lra.
  - rewrite !(fuse_informative _ _ _ _ E).
    unfold visual_weight, forensic_weight. lra.
Qed.

Lemma fusion_monotone_in_visual_witness :
  fake_score (signal (2 # 10)) <= fake_score (signal (9 # 10)) /\
  fuse_image_signals (signal (2 # 10)) (signal (7 # 10))
  <= fuse_image_signals (signal (9 # 10)) (signal (7 # 10)).
Proof.
  assert (H : fake_score (signal (2 # 10)) <= fake_score (signal (9 # 10)))
    by discriminate.
  split; [exact H|].
  exact (fusion_monotone_in_visual
           (signal (2 # 10)) (signal (9 # 10)) (signal (7 # 10)) H).
Defined.

(** X9: in exact arithmetic, with the floating-point numbers of the
    source taken as rationals, the forensic signal moves the score away
    from the visual-only score by 30 times the gap between the two fake
    probabilities when it is counted, and not at all when it is neutral;
    for probabilities in [0,1] that is never more than 30 points. *)
Theorem forensic_shift_bounded (visual_result forensic_result : SignalResult) :
  0 <= fake_score visual_result <= 1 ->
  0 <= fake_score forensic_result <= 1 ->
  fuse_image_signals visual_result forensic_result
    - fake_score visual_result * 100
  == (if is_neutral (fake_score forensic_result) then 0
      else 30 * (fake_score forensic_result - fake_score visual_result)) /\
  Qabs (fuse_image_signals visual_result forensic_result
        - fake_score visual_result * 100) <= 30.
Proof.
  intros [Hv0 Hv1] [Hf0 Hf1]. rewrite fuse_image_signals_weighted.
  fold (fake_score visual_result) (fake_score forensic_result).
  set (v := fake_score visual_result) in *.
  set (f := fake_score forensic_result) in *.
  destruct (is_neutral f) eqn:E.
  - rewrite (fuse_neutral _ _ _ _ E). split; [lra|].
    apply Qabs_Qle_condition. split; lra.
  - rewrite (fuse_informative _ _ _ _ E).
    unfold visual_weight, forensic_weight. split; [lra|].
    apply Qabs_Qle_condition. split; lra.
Qed.

Lemma forensic_shift_bounded_witness :
  0 <= fake_score (signal (9 # 10)) <= 1 /\
  0 <= fake_score (signal (2 # 10)) <= 1 /\
  Qabs (fuse_image_signals (signal (9 # 10)) (signal (2 # 10))
        - fake_score (signal (9 # 10)) * 100) <= 30.
Proof.
  assert (H1 : 0 <= fake_score (signal (9 # 10)) <= 1)
    by (split; discriminate).
  assert (H2 : 0 <= fake_score (signal (2 # 10)) <= 1)
    by (split; discriminate).
  split; [exact H1|]. split; [exact H2|].
  exact (proj2 (forensic_shift_bounded
                  (signal (9 # 10)) (signal (2 # 10)) H1 H2)).
Defined.

(** X10: in exact arithmetic, with the floating-point numbers of the
    source taken as rationals, the score is not monotone in the forensic
    signal.  Whenever a forensic value just outside the neutral band is
    still below the visual fake probability, raising the forensic value
    from inside the band to that value lowers the fused risk score. *)
Theorem fusion_drops_leaving_neutral_band
        (visual_result neutral_result forensic_result : SignalResult) :
  is_neutral (fake_score neutral_result) = true ->
  is_neutral (fake_score forensic_result) = false ->
  fake_score neutral_result < fake_score forensic_result ->
  fake_score forensic_result < fake_score visual_result ->
  fuse_image_signals visual_result forensic_result
  < fuse_image_signals visual_result neutral_result.
Proof.
  intros Hn Hi Hlt Hv. rewrite !fuse_image_signals_weighted.
  fold (fake_score visual_result) (fake_score neutral_result)
       (fake_score forensic_result).
  rewrite (fuse_neutral _ _ _ _ Hn), (fuse_informative _ _ _ _ Hi).
  unfold visual_weight, forensic_weight. lra.
Qed.

Lemma fusion_drops_leaving_neutral_band_witness :
  fake_score (signal (50 # 100)) < fake_score (signal (52 # 100)) /\
  fuse_image_signals (signal (9 # 10)) (signal (52 # 100))
  < fuse_image_signals (signal (9 # 10)) (signal (50 # 100)).
Proof.
  assert (H : fake_score (signal (50 # 100)) < fake_score (signal (52 # 100)))
    by reflexivity.
  split; [exact H|].
  apply (fusion_drops_leaving_neutral_band
           (signal (9 # 10)) (signal (50 # 100)) (signal (52 # 100)));
    try reflexivity; exact H.
Defined.

End FusionShape.

(** ** Risk and confidence of the temporal detector *)
Section TemporalProperties.

Lemma max_prob_by_risk (prob_real prob_fake t : Q) :
  prob_real + prob_fake == 1 ->
  (t <= Qmax prob_real prob_fake <->
   t * 100 <= prob_fake * 100 \/ prob_fake * 100 <= (1 - t) * 100).
Proof.
  intros Hs. rewrite Q.max_le_iff. split; intros [H|H]; lra.
Qed.

(** X11: in exact arithmetic, with the probabilities and the thresholds
    0.85 and 0.65 taken as exact decimals, for a temporal result whose
    two probabilities sum to 1 the confidence follows from the risk score
    alone: HIGH exactly when the risk is at least 85 or at most 15, LOW
    exactly when it lies strictly between 35 and 65, MEDIUM in the two
    bands in between. *)
Theorem temporal_confidence_by_risk (prob_real prob_fake : Q) :
  prob_real + prob_fake == 1 ->
  (TemporalDetector.confidence prob_real prob_fake = "HIGH"%string <->
   85 <= TemporalDetector.risk_score prob_fake \/
   TemporalDetector.risk_score prob_fake <= 15) /\
  (TemporalDetector.confidence prob_real prob_fake = "MEDIUM"%string <->
   (15 < TemporalDetector.risk_score prob_fake /\
    TemporalDetector.risk_score prob_fake <= 35) \/
   (65 <= TemporalDetector.risk_score prob_fake /\
    TemporalDetector.risk_score prob_fake < 85)) /\
  (TemporalDetector.confidence prob_real prob_fake = "LOW"%string <->
   35 < TemporalDetector.risk_score prob_fake /\
   TemporalDetector.risk_score prob_fake < 65).
Proof.
  intros Hs. unfold TemporalDetector.risk_score.
  set (r := prob_fake * 100).
  pose proof (max_prob_by_risk prob_real prob_fake (85 # 100) Hs) as HA.
  pose proof (max_prob_by_risk prob_real prob_fake (65 # 100) Hs) as HB.
  fold r in HA, HB.
  assert (HA' : 85 # 100 <= Qmax prob_real prob_fake <-> 85 <= r \/ r <= 15).
  { rewrite HA. split; intros [H|H]; [left|right|left|right]; lra. }
  assert (HB' : 65 # 100 <= Qmax prob_real prob_fake <-> 65 <= r \/ r <= 35).
  { rewrite HB. split; intros [H|H]; [left|right|left|right]; lra. }
  clear HA HB.
  destruct (confidence_cases prob_real prob_fake)
    as [[H E]|[[H1 [H2 E]]|[H E]]]; rewrite E.
  - apply HA' in H.
    split; [|split]; split; intros Hx; try discriminate; try assumption;
      try reflexivity; exfalso.
    + destruct H; destruct Hx as [[? ?]|[? ?]]; lra.
    + destruct H; destruct Hx; lra.
  - apply HB' in H1.
    assert (Hn : ~ (85 <= r \/ r <= 15)).
    { intros Hc. apply HA' in Hc. lra. }
    split; [|split]; split; intros Hx; try discriminate; try reflexivity.
    + exfalso. apply Hn. exact Hx.
    + destruct H1 as [H1|H1].
      * right. split; [exact H1|]. apply Qnot_le_lt. intros Hc. apply Hn. auto.
      * left. split; [|exact H1]. apply Qnot_le_lt. intros Hc. apply Hn. auto.
    + exfalso. destruct H1; destruct Hx; lra.
  - assert (Hn : ~ (65 <= r \/ r <= 35)).
    { intros Hc. apply HB' in Hc. lra. }
    split; [|split]; split; intros Hx; try discriminate; try reflexivity.
    + exfalso. apply Hn. destruct Hx; [left|right]; lra.
    + exfalso. apply Hn. destruct Hx as [[? ?]|[? ?]]; [right|left]; lra.
    + split; apply Qnot_le_lt; intros Hc; apply Hn; auto.
Qed.

Lemma temporal_confidence_by_risk_witness :
  (15 # 100) + (85 # 100) == 1 /\
  TemporalDetector.confidence (15 # 100) (85 # 100) = "HIGH"%string.
Proof.
  assert (H : (15 # 100) + (85 # 100) == 1) by reflexivity.
  split; [exact H|].
  apply (proj1 (temporal_confidence_by_risk (15 # 100) (85 # 100) H)).
  left. discriminate.
Defined.

End TemporalProperties.

(** ** What subtracting the maximum buys, and the binary decision *)
Section SoftmaxShape.

Import Softmax.
Local Open Scope R_scope.

Lemma max_from_attained (x : R) (xs : list R) : In (max_from x xs) (x :: xs).
Proof.
  revert x. induction xs as [|y ys IH]; intros x; simpl.
  - left. reflexivity.
  - destruct (IH (Rmax x y)) as [H|H].
    + rewrite <- H.
      unfold Rmax. destruct (Rle_dec x y); auto.
    + right. right. exact H.
Qed.

Lemma term_le_sum (e : R) (es : list R) :
  Forall (fun a => 0 <= a) es -> In e es -> e <= sum es.
Proof.
  induction es as [|a es IH]; simpl; intros Hall Hin.
  - destruct Hin.
  - inversion Hall as [|? ? Ha Hes]; subst.
    assert (Hs : 0 <= sum es).
    { clear - Hes. induction es as [|b es IH]; simpl.
      - Lra.lra.
      - inversion Hes; subst. pose proof (IH H2). Lra.lra. }
    destruct Hin as [H|H].
    + subst a. Lra.lra.
    + pose proof (IH Hes H). Lra.lra.
Qed.

Lemma sum_le_length (es : list R) :
  Forall (fun a => a <= 1) es -> sum es <= INR (List.length es).
Proof.
  induction es as [|a es IH]; intros Hall.
  - simpl. Lra.lra.
  - inversion Hall; subst. specialize (IH H2).
    change (sum (a :: es)) with (a + sum es).
    change (List.length (a :: es)) with (S (List.length es)).
    rewrite S_INR. Lra.lra.
Qed.

(** X12: after subtracting the maximum logit every exponential lies in
    (0,1], so none can overflow, and their sum, the denominator of the
    division, lies between 1 and the number of logits, so it is never
    zero. *)
Theorem stable_softmax_denominator (x : R) (xs : list R) :
  Forall (fun e => 0 < e <= 1)
         (map (fun l => exp (l - max_from x xs)) (x :: xs)) /\
  1 <= sum (map (fun l => exp (l - max_from x xs)) (x :: xs))
    <= INR (List.length (x :: xs)).
Proof.
  assert (Hall : Forall (fun e => 0 < e <= 1)
                        (map (fun l => exp (l - max_from x xs)) (x :: xs))).
  { apply Forall_forall. intros e He.
    apply in_map_iff in He. destruct He as [l [El Hin]]. subst e.
    apply shifted_exponentials_bounded. exact Hin. }
  split; [exact Hall|]. split.
  - assert (H1 : In 1 (map (fun l => exp (l - max_from x xs)) (x :: xs))).
    { apply in_map_iff. exists (max_from x xs). split.
      - rewrite Rminus_diag. apply exp_0.
      - apply max_from_attained. }
    apply term_le_sum; [|exact H1].
    eapply Forall_impl; [|exact Hall]. simpl. intros a [Ha _]. Lra.lra.
  - rewrite <- (length_map (fun l => exp (l - max_from x xs)) (x :: xs)).
    apply sum_le_length.
    eapply Forall_impl; [|exact Hall]. simpl. intros a [_ Ha]. exact Ha.
Qed.

(** X13: in exact arithmetic over the reals, on the temporal detector's
    two logits the softmax returns
    [prob_fake = 1 / (1 + exp(logit_real - logit_fake))]; the fake class
    gets the larger probability, and a risk score above 50, exactly when
    its logit is the larger one. *)
Theorem binary_softmax_decision (logit_real logit_fake : R) :
  exists prob_real prob_fake,
    stable_softmax [logit_real; logit_fake] = Some [prob_real; prob_fake] /\
    prob_fake = 1 / (1 + exp (logit_real - logit_fake)) /\
    (prob_real < prob_fake <-> logit_real < logit_fake) /\
    (50 < prob_fake * 100 <-> logit_real < logit_fake).
Proof.
  rewrite stable_is_standard. unfold standard_softmax. simpl.
  pose proof (exp_pos logit_real) as Ha.
  pose proof (exp_pos logit_fake) as Hb.
  set (a := exp logit_real) in *. set (b := exp logit_fake) in *.
  assert (Hexp : logit_real < logit_fake <-> a < b).
  { split.
    - apply exp_increasing.
    - apply exp_lt_inv. }
  exists (a / (a + (b + 0))), (b / (a + (b + 0))).
  split; [reflexivity|]. split; [|split].
  - unfold Rminus. rewrite exp_plus, exp_Ropp. fold a b. field.
    split; Lra.lra.
  - rewrite Hexp. unfold Rdiv.
    assert (Hi : 0 < / (a + (b + 0))) by (apply Rinv_0_lt_compat; Lra.lra).
    split; intros H.
    + apply (Rmult_lt_reg_r (/ (a + (b + 0)))); assumption.
    + apply Rmult_lt_compat_r; assumption.
  - rewrite Hexp.
    assert (Hs : 0 < a + (b + 0)) by Lra.lra.
    assert (E : b / (a + (b + 0)) * 100 - 50
                = 50 * (b - a) / (a + (b + 0))) by (field; Lra.lra).
    split; intros H.
    + assert (H' : 0 < 50 * (b - a) / (a + (b + 0))) by Lra.lra.
      unfold Rdiv in H'.
      assert (H2 : 0 < 50 * (b - a) * / (a + (b + 0)) * (a + (b + 0)))
        by (apply Rmult_lt_0_compat; assumption).
      rewrite Rmult_assoc, Rinv_l in H2 by Lra.lra. Lra.lra.
    + assert (H' : 0 < 50 * (b - a) / (a + (b + 0))).
      { apply Rdiv_lt_0_compat; Lra.lra. }
      Lra.lra.
Qed.

End SoftmaxShape.

(** ** The analysis page *)
Section AnalyzePageProperties.

Import AnalyzePage.
Local Open Scope string_scope.

Lemma prefix_head (a b : ascii) (s1 s2 : string) :
  String.prefix (String a s1) (String b s2) = true -> a = b.
Proof.
  intros H.
  change ((if Ascii.ascii_dec a b then String.prefix s1 s2 else false) = true)
    in H.
  destruct (Ascii.ascii_dec a b); [assumption|discriminate].
Qed.

Lemma video_audio_exclusive (mime : string) :
  startsWith mime "video/" = true -> startsWith mime "audio/" = true -> False.
Proof.
  unfold startsWith. destruct mime as [|c s].
  - discriminate.
  - intros Hv Ha. apply prefix_head in Hv. apply prefix_head in Ha.
    congruence.
Qed.

Lemma typeEndpoint_cases (m : Mode) (mime : string) :
  (startsWith mime "video/" = true /\ startsWith mime "audio/" = false /\
   typeEndpoint m mime = "/video/") \/
  (startsWith mime "video/" = false /\ startsWith mime "audio/" = true /\
   typeEndpoint m mime = "/audio/") \/
  (startsWith mime "video/" = false /\ startsWith mime "audio/" = false /\
   typeEndpoint m mime = "/image/").
Proof.
  unfold typeEndpoint. cbv zeta.
  pose proof (video_audio_exclusive mime) as Hex.
  destruct (startsWith mime "video/") eqn:Ev;
    destruct (startsWith mime "audio/") eqn:Ea; destruct m; simpl;
    try (exfalso; apply Hex; reflexivity); auto 10.
Qed.

(** X14: the request goes to [/video/] exactly for MIME types starting
    with [video/], to [/audio/] exactly for those starting with [audio/],
    and to [/image/] for every other type, the empty one included; the
    mode has no influence on this part of the URL. *)
Theorem typeEndpoint_by_mime (m : Mode) (mime : string) :
  (typeEndpoint m mime = "/video/" <-> startsWith mime "video/" = true) /\
  (typeEndpoint m mime = "/audio/" <-> startsWith mime "audio/" = true) /\
  (typeEndpoint m mime = "/image/" <->
   startsWith mime "video/" = false /\ startsWith mime "audio/" = false) /\
  typeEndpoint standard mime = typeEndpoint enhanced mime.
Proof.
  destruct (typeEndpoint_cases m mime) as [[Hv [Ha E]]|[[Hv [Ha E]]|[Hv [Ha E]]]];
    destruct (typeEndpoint_cases standard mime)
      as [[Hv1 [Ha1 E1]]|[[Hv1 [Ha1 E1]]|[Hv1 [Ha1 E1]]]];
    destruct (typeEndpoint_cases enhanced mime)
      as [[Hv2 [Ha2 E2]]|[[Hv2 [Ha2 E2]]|[Hv2 [Ha2 E2]]]];
    try congruence;
    rewrite E, E1, E2, Hv, Ha;
    repeat split; intros; try discriminate; try reflexivity;
    try (destruct H; discriminate).
Qed.

(** X15: the preview element matches the endpoint the file is sent to:
    a [video] preview goes with [/video/], an [audio] preview with
    [/audio/], an [img] preview with [/image/], for every MIME type and
    mode. *)
Theorem preview_matches_endpoint (m : Mode) (mime : string) :
  (preview_element mime = "video" <-> typeEndpoint m mime = "/video/") /\
  (preview_element mime = "audio" <-> typeEndpoint m mime = "/audio/") /\
  (preview_element mime = "img" <-> typeEndpoint m mime = "/image/").
Proof.
  unfold preview_element.
  destruct (typeEndpoint_cases m mime) as [[Hv [Ha E]]|[[Hv [Ha E]]|[Hv [Ha E]]]];
    rewrite E, Hv, ?Ha;
    repeat split; intros; try discriminate; reflexivity.
Qed.

(** X16: every path the page requests is listed in the reference's
    endpoint tables, except the enhanced-mode path for audio files,
    [/api/v1/analyze/advanced/audio/], which the tables do not list. *)
Theorem request_path_documented (m : Mode) (mime : string) :
  In (request_path m mime) (standard_endpoints ++ enhanced_endpoints) <->
  ~ (m = enhanced /\ startsWith mime "audio/" = true).
Proof.
  unfold request_path.
  destruct (typeEndpoint_cases m mime) as [[Hv [Ha E]]|[[Hv [Ha E]]|[Hv [Ha E]]]];
    rewrite E, Ha; destruct m; simpl; split; intros H;
    try (intros [H1 H2]; discriminate); auto 10.
  exfalso.
  repeat (destruct H as [H|H]; [discriminate|]). exact H.
Qed.

Lemma or_else_nonempty (a : option string) (b : string) :
  b <> "" -> or_else a b <> "".
Proof.
  intros Hb. destruct a as [[|c s]|]; simpl; try assumption. discriminate.
Qed.

(** X17: an analysis started with a file selected always ends with the
    loading flag off and the file, preview and mode untouched.  A
    successful response stores the result and leaves no error.  A failed
    one (an error response, or an exception such as the 30 s abort)
    leaves a non-empty error message and keeps whatever result was shown
    before.  With no file selected nothing changes. *)
Theorem analyzeFile_outcome (outcome : FetchOutcome) (st : State) :
  (file st = None -> analyzeFile outcome st = st) /\
  (file st <> None ->
   loading (analyzeFile outcome st) = false /\
   file (analyzeFile outcome st) = file st /\
   preview (analyzeFile outcome st) = preview st /\
   mode (analyzeFile outcome st) = mode st /\
   match outcome with
   | Responded true data =>
       result (analyzeFile outcome st) = Some (as_result data) /\
       error (analyzeFile outcome st) = None
   | _ =>
       result (analyzeFile outcome st) = result st /\
       exists message,
         error (analyzeFile outcome st) = Some message /\ message <> ""
   end).
Proof.
  destruct st as [fl pv ld rs md er]. split.
  - cbv -[or_else]. intros H. rewrite H. reflexivity.
  - destruct fl as [f|]; [intros _|intros H; exfalso; apply H; reflexivity].
    destruct outcome as [[|] data|message]; cbv -[or_else];
      repeat (split; [reflexivity|]);
      try reflexivity;
      eexists; (split; [reflexivity|]);
      apply or_else_nonempty; discriminate.
Qed.

Lemma analyzeFile_outcome_witness :
  error (analyzeFile (Threw (Some ""))
           (mkState (Some (mkFile "a.png" "image/png" 10%Z)) None false
                    None standard None))
  = Some "An error occurred during analysis".
Proof.
  destruct (proj2 (analyzeFile_outcome (Threw (Some ""))
             (mkState (Some (mkFile "a.png" "image/png" 10%Z)) None false
                      None standard None)) ltac:(discriminate))
    as [_ [_ [_ [_ [_ [message [E _]]]]]]].
  reflexivity.
Defined.

(** X18: the header shows the alert icon exactly when the meter is red
    for a result classified by the strict threshold rule; for a result
    classified by the visual detector's rule the two disagree exactly at
    a risk score of 50, where the header alerts and the meter is green. *)
Theorem header_and_meter (risk : Q) :
  (header_icon (threshold_classification risk) = "AlertTriangle" <->
   meter_color risk = "#ef4444") /\
  ((header_icon (VisualDetector.classification risk) = "AlertTriangle" <->
    meter_color risk = "#ef4444") <-> ~ (risk == 50)%Q) /\
  ((risk == 50)%Q ->
   header_icon (VisualDetector.classification risk) = "AlertTriangle" /\
   meter_color risk = "#10b981").
Proof.
  unfold header_icon, meter_color, threshold_classification,
    VisualDetector.classification.
  destruct (Qlt_le_dec 50 risk) as [Hlt|Hle];
    destruct (Qle_bool 50 risk) eqn:Ele; simpl.
  - split; [tauto|]. split; [|intros H; exfalso; lra].
    split; [intros _ H; lra|tauto].
  - exfalso. assert (Qle_bool 50 risk = true) by (apply Qle_bool_iff; lra).
    congruence.
  - apply Qle_bool_iff in Ele.
    assert (E : (risk == 50)%Q) by lra.
    split; [split; discriminate|]. split; [|auto].
    split.
    + intros [H _]. specialize (H eq_refl). discriminate.
    + intros H. exfalso. apply H. exact E.
  - assert (Hn : ~ (risk == 50)%Q).
    { intros E. assert (Qle_bool 50 risk = true)
        by (apply Qle_bool_iff; lra). congruence. }
    split; [split; discriminate|]. split.
    + split; [intros _; exact Hn|intros _; split; discriminate].
    + intros E. exfalso. apply Hn. exact E.
Qed.

End AnalyzePageProperties.

(** ** The page over a whole session *)
Section AnalyzePageSession.

Import AnalyzePage.

Variable createObjectURL : File -> string.

Lemma initial_consistent : consistent createObjectURL initial.
Proof.
  unfold consistent, initial. simpl.
  split; [reflexivity|]. split; [discriminate|auto].
Qed.

Lemma step_consistent (st : State) (e : Event) :
  consistent createObjectURL st ->
  consistent createObjectURL (step createObjectURL st e).
Proof.
  destruct st as [fl pv ld rs md er].
  unfold consistent. simpl. intros [Hl [Hp Hn]].
  destruct e as [files|files| |m|outcome]; simpl.
  - destruct files as [|f0 files]; cbv.
    + auto.
    + split; [assumption|]. split.
      * intros f Hf. injection Hf as <-. reflexivity.
      * discriminate.
  - destruct files as [|f0 files]; cbv.
    + auto.
    + split; [assumption|]. split.
      * intros f Hf. injection Hf as <-. reflexivity.
      * discriminate.
  - cbv. split; [assumption|]. split; [discriminate|auto].
  - cbv. auto.
  - destruct fl as [f0|].
    + destruct outcome as [[|] data|message]; cbv -[or_else];
        (split; [reflexivity|]); (split; [exact Hp|discriminate]).
    + cbv. auto.
Qed.

Lemma run_from_consistent (events : list Event) (st : State) :
  consistent createObjectURL st ->
  consistent createObjectURL (fold_left (step createObjectURL) events st).
Proof.
  revert st. induction events as [|e events IH]; intros st Hst; simpl.
  - exact Hst.
  - apply IH. apply step_consistent. exact Hst.
Qed.

(** X19: after any sequence of file selections, drops, clears, mode
    switches and settled analyses, starting from the initial page, the
    loading flag is off, the preview is the object URL of the selected
    file, and with no file selected there is no preview, no result and no
    error on screen: a result or an error is only ever shown together
    while a file is selected. *)
Theorem page_stays_consistent (events : list Event) :
  loading (run createObjectURL events) = false /\
  (forall f, file (run createObjectURL events) = Some f ->
             preview (run createObjectURL events) = Some (createObjectURL f)) /\
  (file (run createObjectURL events) = None ->
   preview (run createObjectURL events) = None /\
   result (run createObjectURL events) = None /\
   error (run createObjectURL events) = None).
Proof.
  exact (run_from_consistent events initial initial_consistent).
Qed.

End AnalyzePageSession.
